(** * Plex_Converter: a shallow embedding of [plex_converter.py]

    The development follows the source file top to bottom.  Python values
    are modelled as the interpreter has them: [str] as [string] (one
    [ascii] per code point below 256), [int] as [Z], [float] as an IEEE
    binary64 value ([spec_float] at precision 53), exceptions as an error
    result, and the effects of [PlexConverter.convert_file] (console,
    child processes, filesystem) as explicit state passing over a
    [world]. *)

From Stdlib Require Import ZArith QArith List String Ascii Bool Lia SpecFloat.
From stdpp Require Import base option list gmap strings pretty.

Import ListNotations.
Local Open Scope string_scope.
Local Open Scope Z_scope.
Local Open Scope list_scope.

(** ** Python [str] operations used by the converter *)

Module PyStr.

(** [str.isspace] on one character (code points below 256). *)
Definition is_space (c : ascii) : bool :=
  let n := nat_of_ascii c in
  ((9 <=? n) && (n <=? 13))%nat || ((28 <=? n) && (n <=? 32))%nat
  || (n =? 133)%nat || (n =? 160)%nat.

(** [sub in s] *)
Fixpoint contains (sub s : string) : bool :=
  String.prefix sub s
  || match s with
     | EmptyString => false
     | String _ s' => contains sub s'
     end.

(** [s.split(sep)] for a non-empty [sep]: occurrences are found left to
    right and do not overlap.  [skip] counts the characters of the
    occurrence just found that are still to be dropped.  The result is
    never empty: its head is the piece that is being read. *)
Definition push (c : ascii) (pieces : list string) : list string :=
  match pieces with
  | h :: t => String c h :: t
  | [] => [String c EmptyString]
  end.

Fixpoint split_go (sep s : string) (skip : nat) : list string :=
  match s with
  | EmptyString => [EmptyString]
  | String c s' =>
      match skip with
      | S k => split_go sep s' k
      | O =>
          if String.prefix sep s
          then EmptyString :: split_go sep s' (String.length sep - 1)
          else push c (split_go sep s' O)
      end
  end.

Definition split (sep s : string) : list string := split_go sep s O.

(** [s.split()]: the pieces between runs of whitespace, none of them
    empty. *)
Definition starts_word (s : string) : bool :=
  match s with
  | String c _ => negb (is_space c)
  | EmptyString => false
  end.

Fixpoint split_ws (s : string) : list string :=
  match s with
  | EmptyString => []
  | String c s' =>
      if is_space c then split_ws s'
      else if starts_word s' then push c (split_ws s')
      else String c EmptyString :: split_ws s'
  end.

Fixpoint lstrip (s : string) : string :=
  match s with
  | String c s' => if is_space c then lstrip s' else s
  | EmptyString => EmptyString
  end.

Fixpoint rstrip (s : string) : string :=
  match s with
  | EmptyString => EmptyString
  | String c s' =>
      match rstrip s' with
      | EmptyString => if is_space c then EmptyString else String c EmptyString
      | r => String c r
      end
  end.

(** [s.strip()] *)
Definition strip (s : string) : string := rstrip (lstrip s).

Definition lower_char (c : ascii) : ascii :=
  let n := nat_of_ascii c in
  if ((65 <=? n) && (n <=? 90))%nat then ascii_of_nat (n + 32) else c.

(** [s.lower()] *)
Fixpoint lower (s : string) : string :=
  match s with
  | EmptyString => EmptyString
  | String c s' => String (lower_char c) (lower s')
  end.

(** [sep.join(l)] *)
Fixpoint join (sep : string) (l : list string) : string :=
  match l with
  | [] => EmptyString
  | [x] => x
  | x :: l' => x +:+ sep +:+ join sep l'
  end.

(** [s.endswith(suf)] *)
Definition endswith (s suf : string) : bool :=
  let n := String.length s in
  let k := String.length suf in
  (k <=? n)%nat && String.eqb (String.substring (n - k) k s) suf.

End PyStr.

Import PyStr.

(** ** Exceptions *)

Inductive exn : Set :=
  | ValueError | IndexError | OverflowError | ZeroDivisionError
  | OSError | EOFError | UnboundLocalError
  | KeyboardInterrupt.

(** [except Exception] catches everything but [KeyboardInterrupt], which
    derives from [BaseException] only. *)
Definition is_Exception (e : exn) : bool :=
  match e with KeyboardInterrupt => false | _ => true end.

Inductive result (A : Type) : Type :=
  | Ret (a : A)
  | Raise (e : exn).
Arguments Ret {A} a.
Arguments Raise {A} e.

Definition rbind {A B} (r : result A) (k : A -> result B) : result B :=
  match r with
  | Ret a => k a
  | Raise e => Raise e
  end.

(** ** Python numbers: [int] and [float] *)

Module PyNum.

Definition prec : Z := 53.
Definition emax : Z := 1024.

(** A Python [float] is an IEEE 754 binary64 value. *)
Definition float : Set := spec_float.

Definition fadd : float -> float -> float := SFadd prec emax.
Definition fmul : float -> float -> float := SFmul prec emax.
Definition fdiv : float -> float -> float := SFdiv prec emax.

(** The float nearest to an integer (ties to even); infinite when the
    integer is out of range. *)
Definition Z2F (z : Z) : float := binary_normalize prec emax z 0 false.

(** The float nearest to [n / d]. *)
Definition ratio2F (neg : bool) (n d : positive) : float :=
  fdiv (S754_finite neg n 0) (S754_finite false d 0).

(** [n * 10^k] as a float, with the sign [neg]. *)
Definition dec2F (neg : bool) (n k : Z) : float :=
  match n with
  | Zpos m =>
      if 0 <=? k
      then binary_normalize prec emax (if neg then - (n * 10 ^ k) else n * 10 ^ k) 0 false
      else ratio2F neg m (Z.to_pos (10 ^ (- k)))
  | _ => S754_zero neg
  end.

(** [float(z)] for an [int] operand of mixed arithmetic. *)
Definition float_of_int (z : Z) : result float :=
  match Z2F z with
  | S754_infinity _ => Raise OverflowError
  | f => Ret f
  end.

(** Truth value of a float: false exactly for [0.0] and [-0.0]. *)
Definition truthy (f : float) : bool :=
  match f with S754_zero _ => false | _ => true end.

(** [x / y] on floats. *)
Definition truediv (x y : float) : result float :=
  if truthy y then Ret (fdiv x y) else Raise ZeroDivisionError.

Definition digit_of (c : ascii) : option Z :=
  let n := nat_of_ascii c in
  if ((48 <=? n) && (n <=? 57))%nat then Some (Z.of_nat (n - 48)) else None.

(** The longest prefix that is a run of digits, single underscores
    allowed between two digits, and what follows it. *)
Fixpoint scan_digits (s : string) : list Z * string :=
  match s with
  | String c s' =>
      match digit_of c with
      | Some d =>
          match s' with
          | String "_"%char s'' =>
              match scan_digits s'' with
              | ([], _) => ([d], s')
              | (ds, r) => (d :: ds, r)
              end
          | _ => let '(ds, r) := scan_digits s' in (d :: ds, r)
          end
      | None => ([], s)
      end
  | EmptyString => ([], s)
  end.

Definition value (ds : list Z) : Z := fold_left (fun a d => 10 * a + d) ds 0.

Definition scan_sign (s : string) : bool * string :=
  match s with
  | String "-"%char s' => (true, s')
  | String "+"%char s' => (false, s')
  | _ => (false, s)
  end.

(** The most digits that [int] converts ([sys.int_max_str_digits]). *)
Definition int_max_str_digits : nat := 4300.

(** [int(s)] in base ten; more than 4300 digits, leading zeros counted,
    are refused. *)
Definition int (s : string) : result Z :=
  let '(neg, s1) := scan_sign (strip s) in
  match scan_digits s1 with
  | ((_ :: _) as ds, EmptyString) =>
      if (int_max_str_digits <? length ds)%nat then Raise ValueError
      else Ret (if neg then - value ds else value ds)
  | _ => Raise ValueError
  end.

(** The exponent part of a float literal: empty, or [e] or [E], an
    optional sign and digits, up to the end of the string. *)
Definition scan_exponent (s : string) : option Z :=
  match s with
  | EmptyString => Some 0
  | String c s' =>
      if (Ascii.eqb c "e" || Ascii.eqb c "E")%char
      then let '(neg, s1) := scan_sign s' in
           match scan_digits s1 with
           | ((_ :: _) as ds, EmptyString) => Some (if neg then - value ds else value ds)
           | _ => None
           end
      else None
  end.

(** [float(s)] *)
Definition float_of_str (s : string) : result float :=
  let '(neg, s1) := scan_sign (strip s) in
  let l := lower s1 in
  if (String.eqb l "inf" || String.eqb l "infinity")%string then Ret (S754_infinity neg)
  else if String.eqb l "nan" then Ret S754_nan
  else
    let '(ip, r1) := scan_digits s1 in
    let '(fp, r2) :=
      match r1 with
      | String "."%char r => scan_digits r
      | _ => ([], r1)
      end in
    match (ip ++ fp)%list, scan_exponent r2 with
    | (_ :: _) as ds, Some e => Ret (dec2F neg (value ds) (e - Z.of_nat (length fp)))
    | _, _ => Raise ValueError
    end.

End PyNum.

Import PyNum.

(** ** [pathlib.Path] (POSIX flavour) *)

Module PathLib.

(** A path as [pathlib] holds it: the root and the components after
    it; empty components and [.] are dropped when a string is parsed. *)
Record Path : Set := mkPath { root : string; parts : list string }.

Definition parse_root (s : string) : string :=
  match s with
  | String "/" (String "/" (String "/" _)) => "/"
  | String "/" (String "/" _) => "//"
  | String "/" _ => "/"
  | _ => ""
  end.

Definition kept (c : string) : bool :=
  negb (String.eqb c "" || String.eqb c ".").

(** [Path(s)] *)
Definition of_str (s : string) : Path :=
  mkPath (parse_root s) (List.filter kept (split "/" s)).

(** [str(p)] *)
Definition to_str (p : Path) : string :=
  match root p, parts p with
  | EmptyString, [] => "."
  | r, l => r +:+ join "/" l
  end.

(** [p.name]: the final component, empty for [.] and for the root. *)
Definition name (p : Path) : string := List.last (parts p) "".

(** [s.rfind(c)] *)
Fixpoint rfind (c : ascii) (s : string) : option nat :=
  match s with
  | EmptyString => None
  | String a s' =>
      match rfind c s' with
      | Some i => Some (S i)
      | None => if Ascii.eqb a c then Some O else None
      end
  end.

(** [p.stem]: the name without its last suffix; a leading or a
    trailing dot starts no suffix. *)
Definition stem (p : Path) : string :=
  let n := name p in
  match rfind "." n with
  | Some i =>
      if ((0 <? i) && (i <? String.length n - 1))%nat
      then String.substring 0 i n
      else n
  | None => n
  end.

(** [p.with_name(n)]: [ValueError] when [p] has no name, or when [n]
    is not a single component. *)
Definition with_name (p : Path) (n : string) : result Path :=
  if String.eqb (name p) "" then Raise ValueError
  else if String.eqb n "" || String.eqb n "." || contains "/" n then Raise ValueError
  else Ret (mkPath (root p) (removelast (parts p) ++ [n])%list).

(** [p / n] for a single component [n], as [glob] builds its results. *)
Definition child (p : Path) (n : string) : Path :=
  mkPath (root p) (parts p ++ [n])%list.

End PathLib.

Import PathLib.

(** An argument that is either a [str] or already a [Path]. *)
Inductive pathlike : Set :=
  | PStr (s : string)
  | PPath (p : Path).

(** [Path(x)] *)
Definition Path_ (x : pathlike) : Path :=
  match x with
  | PStr s => of_str s
  | PPath p => p
  end.

(** [f"{x}"] *)
Definition fmt (x : pathlike) : string :=
  match x with
  | PStr s => s
  | PPath p => to_str p
  end.

(** ** The world around the converter *)

Definition content : Set := list Byte.byte.

(** What the program does to its surroundings, in order. *)
Inductive event : Type :=
  | Print (s : string)            (** [print(s)] *)
  | PrintProgress (p : float)     (** [print(f"\rProgress: {p:.1f}%", end='')] *)
  | PrintError (e : exn)          (** [print(f"\nError during conversion: {e}")] *)
  | PrintHelp                     (** [parser.print_help()] *)
  | Input (prompt : string)       (** [input(prompt)] *)
  | Run (cmd : list string)       (** [subprocess.run(cmd, ...)] *)
  | Popen (cmd : list string)     (** [subprocess.Popen(cmd, ...)] *)
  | Wait                          (** [process.wait()] *)
  | Terminate                     (** [process.terminate()] *)
  | Unlink (p : string).          (** [Path.unlink()] *)

(** The filesystem holds regular files by path; [stdin] holds the lines
    the user will still type; [trace] is what has happened so far. *)
Record world : Type := mkWorld {
  fs : gmap string content;
  stdin : list string;
  trace : list event
}.

(** How a run of the prober ends. *)
Inductive probed : Set :=
  | ProbeStdout (out : string)    (** exit status 0, with this output *)
  | ProbeNonZero                  (** [CalledProcessError] *)
  | ProbeMissing                  (** [FileNotFoundError]: no such program *)
  | ProbeInterrupted.             (** [KeyboardInterrupt] while it runs *)

(** How the encoder child ends, seen from the parent: it exits, or the
    parent is interrupted once it has read the lines of [stderr]. *)
Inductive ending : Set :=
  | Exits (returncode : Z)
  | Interrupted.

Record process : Set := mkProcess {
  stderr : list string;           (** the lines the parent reads *)
  written : option content;       (** what the child leaves at the output path *)
  finish : ending
}.

Inductive spawned : Set :=
  | SpawnFails                    (** [OSError] from [Popen] *)
  | Spawns (c : process).

(** The external programs and the directory listing, as oracles. *)
Record env : Type := mkEnv {
  ffprobe : list string -> probed;
  ffmpeg : list string -> spawned;
  ffmpeg_version : bool;          (** whether [ffmpeg -version] succeeds *)
  scandir : Path -> list string   (** entry names, in the system's order *)
}.

(** Computations that read and change the world and may raise. *)
Definition M (A : Type) : Type := world -> result A * world.

Definition raise {A} (e : exn) : M A := fun w => (Raise e, w).

#[global] Instance M_ret : MRet M := fun A (a : A) w => (Ret a, w).

#[global] Instance M_bind : MBind M := fun A B (k : A -> M B) (m : M A) w =>
  match m w with
  | (Ret a, w') => k a w'
  | (Raise e, w') => (Raise e, w')
  end.

Definition ret {A} (a : A) : M A := mret a.

Definition emit (e : event) : M unit :=
  fun w => (Ret tt, mkWorld (fs w) (stdin w) (trace w ++ [e])).

Definition print (s : string) : M unit := emit (Print s).

(** [input(prompt)]: the next line of [stdin], [EOFError] at its end. *)
Definition input (prompt : string) : M string :=
  fun w => match stdin w with
           | l :: rest => (Ret l, mkWorld (fs w) rest (trace w ++ [Input prompt]))
           | [] => (Raise EOFError, mkWorld (fs w) [] (trace w ++ [Input prompt]))
           end.

(** [p.exists()] *)
Definition exists_ (p : Path) : M bool :=
  fun w => (Ret (bool_decide (is_Some (fs w !! to_str p))), w).

(** [p.unlink()] *)
Definition unlink (p : Path) : M unit :=
  fun w => match fs w !! to_str p with
           | Some _ => (Ret tt, mkWorld (delete (to_str p) (fs w)) (stdin w)
                                        (trace w ++ [Unlink (to_str p)]))
           | None => (Raise OSError, w)
           end.

Definition nl : string := String (ascii_of_nat 10) EmptyString.

(** ** [class PlexConverter] *)

Record PlexConverter : Set := mkPlexConverter {
  quality : Z;
  preset : string;
  audio_bitrate : string;
  copy_subtitles : bool;
  video_extensions : list string
}.

(** [PlexConverter.__init__] *)
Definition init (quality : Z) (preset audio_bitrate : string) (copy_subtitles : bool)
  : PlexConverter :=
  mkPlexConverter quality preset audio_bitrate copy_subtitles
    [".mp4"; ".mkv"; ".avi"; ".mov"; ".wmv"; ".flv"; ".m4v"].

(** [PlexConverter.check_ffmpeg] *)
Definition check_ffmpeg (E : env) : M bool :=
  emit (Run ["ffmpeg"; "-version"]);; ret (ffmpeg_version E).

(** [PlexConverter.get_duration] *)
Definition get_duration (E : env) (file_path : Path) : M (option float) :=
  let cmd := ["ffprobe"; "-v"; "error"; "-show_entries"; "format=duration";
              "-of"; "default=noprint_wrappers=1:nokey=1"; to_str file_path] in
  emit (Run cmd);;
  match ffprobe E cmd with
  | ProbeStdout out =>
      match float_of_str (strip out) with
      | Ret f => ret (Some f)
      | Raise ValueError => ret None
      | Raise e => raise e
      end
  | ProbeNonZero => ret None
  | ProbeMissing => raise OSError
  | ProbeInterrupted => raise KeyboardInterrupt
  end.

#[global] Instance result_ret : MRet result := fun A (a : A) => Ret a.
#[global] Instance result_bind : MBind result := fun A B (k : A -> result B) r => rbind r k.

Definition lift {A} (r : result A) : M A := fun w => (r, w).

(** [l[i]] *)
Definition item {A} (l : list A) (i : nat) : result A :=
  match nth_error l i with
  | Some x => Ret x
  | None => Raise IndexError
  end.

(** ** [PlexConverter.convert_file] *)

(** [int(hours) * 3600 + int(minutes) * 60 + float(seconds)]: the sum of
    the two [int] terms is exact and is converted when the float is
    added. *)
Definition current_time (hours minutes seconds : string) : result float :=
  h ← int hours;
  m ← int minutes;
  s ← float_of_str seconds;
  i ← float_of_int (h * 3600 + m * 60);
  Ret (fadd i s).

(** The body of the inner [try], up to the value that is printed; [None]
    when the token does not have three fields. *)
Definition progress_of (duration : float) (time_str : string) : result (option float) :=
  let parts := split ":" time_str in
  match parts with
  | [hours; minutes; seconds] =>
      t ← current_time hours minutes seconds;
      q ← truediv t duration;
      Ret (Some (fmul q (Z2F 100)))
  | _ => Ret None
  end.

(** One round of [for line in process.stderr]. *)
Definition monitor_line (duration : option float) (line : string) : M unit :=
  match duration with
  | Some d =>
      if truthy d && contains "time=" line then
        after ← lift (item (split "time=" line) 1);
        time_str ← lift (item (split_ws after) 0);
        match progress_of d time_str with
        | Ret (Some progress) => emit (PrintProgress progress)
        | Ret None => ret tt
        | Raise ValueError | Raise IndexError => ret tt
        | Raise e => raise e
        end
      else ret tt
  | None => ret tt
  end.

Fixpoint monitor (duration : option float) (lines : list string) : M unit :=
  match lines with
  | [] => ret tt
  | line :: rest => monitor_line duration line;; monitor duration rest
  end.

(** The encoder's command line. *)
Definition build_cmd (self : PlexConverter) (input_path output_file : Path) : list string :=
  (["ffmpeg";
    "-i"; to_str input_path;
    "-c:v"; "libx264";
    "-preset"; preset self;
    "-crf"; pretty (quality self);
    "-c:a"; "aac";
    "-b:a"; audio_bitrate self;
    "-movflags"; "+faststart";
    "-map_metadata"; "0"]
   ++ (if copy_subtitles self then ["-c:s"; "mov_text"] else [])
   ++ [to_str output_file])%list.

(** The child's effect on the filesystem: what it leaves at its output
    path, in place by the time the parent looks at that path again. *)
Definition produce (output_file : Path) (d : option content) : M unit :=
  fun w => (Ret tt, mkWorld (match d with
                             | Some b => <[to_str output_file := b]> (fs w)
                             | None => fs w
                             end) (stdin w) (trace w)).

(** [subprocess.Popen(cmd, stderr=PIPE, ...)] *)
Definition popen (E : env) (cmd : list string) (output_file : Path) : M process :=
  emit (Popen cmd);;
  match ffmpeg E cmd with
  | SpawnFails => raise OSError
  | Spawns c => produce output_file (written c);; ret c
  end.

(** What follows [Popen] inside the [try]. *)
Definition supervise (duration : option float) (c : process) : M bool :=
  monitor duration (stderr c);;
  match finish c with
  | Interrupted => raise KeyboardInterrupt
  | Exits returncode =>
      emit Wait;;
      if returncode =? 0
      then print (nl +:+ "✓ Conversion completed successfully!");; ret true
      else print (nl +:+ "✗ Conversion failed!");; ret false
  end.

(** The [try] block: its outcome, whether the local [process] was bound
    when it ended, and the world it leaves. *)
Definition try_block (E : env) (cmd : list string) (input_path output_file : Path)
  (w : world) : result bool * bool * world :=
  match get_duration E input_path w with
  | (Raise e, w1) => (Raise e, false, w1)
  | (Ret duration, w1) =>
      match popen E cmd output_file w1 with
      | (Raise e, w2) => (Raise e, false, w2)
      | (Ret c, w2) =>
          let '(r, w3) := supervise duration c w2 in (r, true, w3)
      end
  end.

(** [except KeyboardInterrupt:] *)
Definition on_interrupt (bound : bool) (output_file : Path) : M bool :=
  print (nl +:+ nl +:+ "Conversion cancelled by user.");;
  (if bound then emit Terminate else @raise unit UnboundLocalError);;
  there ← exists_ output_file;
  (if there : bool then unlink output_file else ret tt);;
  ret false.

(** [except Exception as e:] *)
Definition on_exception (e : exn) : M bool :=
  emit (PrintError e);; ret false.

(** The [try] statement with its two handlers. *)
Definition try_except (E : env) (cmd : list string) (input_path output_file : Path)
  : M bool :=
  fun w =>
    match try_block E cmd input_path output_file w with
    | (Ret b, _, w') => (Ret b, w')
    | (Raise KeyboardInterrupt, bound, w') => on_interrupt bound output_file w'
    | (Raise e, _, w') => on_exception e w'
    end.

(** [convert_file] from the first [print] on. *)
Definition convert (self : PlexConverter) (E : env) (input_path output_file : Path)
  : M bool :=
  print ("Converting: " +:+ name input_path);;
  print ("Output: " +:+ to_str output_file);;
  print ("Quality: CRF " +:+ pretty (quality self) +:+ ", Preset: " +:+ preset self);;
  try_except E (build_cmd self input_path output_file) input_path output_file.

(** [output_file] after the first [if]/[else] of [convert_file]. *)
Definition resolve_output (input_path : Path) (output_file : option pathlike)
  : result Path :=
  match output_file with
  | None => with_name input_path (stem input_path +:+ "_plex.mp4")
  | Some o => Ret (Path_ o)
  end.

Definition convert_file (self : PlexConverter) (E : env)
  (input_file : pathlike) (output_file : option pathlike) : M bool :=
  let input_path := Path_ input_file in
  there ← exists_ input_path;
  if negb there then
    print ("Error: File '" +:+ fmt input_file +:+ "' does not exist.");; ret false
  else
    output_file ← lift (resolve_output input_path output_file);
    there ← exists_ output_file;
    if there : bool then
      overwrite ← input ("Output file '" +:+ to_str output_file
                         +:+ "' already exists. Overwrite? [y/N]: ");
      if negb (String.eqb (lower overwrite) "y")
      then print "Skipping...";; ret false
      else convert self E input_path output_file
    else convert self E input_path output_file.

(** ** [PlexConverter.batch_convert] *)

(** [directory.glob(f'*{ext}')]: the entries whose name ends with [ext]. *)
Definition glob (E : env) (directory : Path) (ext : string) : list Path :=
  map (child directory) (List.filter (fun n => endswith n ext) (scandir E directory)).

(** The loop that lists the candidates, numbered from [i]. *)
Fixpoint list_files (i : nat) (files : list Path) : M unit :=
  match files with
  | [] => ret tt
  | file :: rest =>
      print (pretty i +:+ ". " +:+ name file);; list_files (S i) rest
  end.

(** The conversion loop over what is left of [video_files], with the
    position [i] of its head, their number [n], and the two counters. *)
Fixpoint batch_loop (self : PlexConverter) (E : env) (n i : nat) (files : list Path)
  (successful failed : nat) : M (nat * nat) :=
  match files with
  | [] => ret (successful, failed)
  | file :: rest =>
      print (nl +:+ "[" +:+ pretty i +:+ "/" +:+ pretty n +:+ "] Processing: " +:+ name file);;
      ok ← convert_file self E (PPath file) None;
      if ok : bool
      then batch_loop self E n (S i) rest (S successful) failed
      else batch_loop self E n (S i) rest successful (S failed)
  end.

Definition report (counts : nat * nat) : M unit :=
  print (nl +:+ "Batch conversion complete!");;
  print ("Successful: " +:+ pretty (fst counts));;
  print ("Failed: " +:+ pretty (snd counts)).

(** The loop over [video_files] and the report that follows it. *)
Definition run_batch (self : PlexConverter) (E : env) (video_files : list Path) : M unit :=
  counts ← batch_loop self E (length video_files) 1 video_files 0 0;
  report counts.

Definition video_files_of (self : PlexConverter) (E : env) (directory : Path) : list Path :=
  flat_map (glob E directory) (video_extensions self).

Definition batch_convert (self : PlexConverter) (E : env) (directory : string) : M unit :=
  let directory := of_str directory in
  let video_files := video_files_of self E directory in
  match video_files with
  | [] => print ("No video files found in " +:+ to_str directory)
  | _ =>
      print ("Found " +:+ pretty (length video_files) +:+ " video file(s) to convert:");;
      list_files 1 video_files;;
      confirm ← input (nl +:+ "Proceed with batch conversion? [y/N]: ");
      if negb (String.eqb (lower confirm) "y")
      then print "Batch conversion cancelled."
      else run_batch self E video_files
  end.

(** ** [main]: the command line *)

(** The options as the user gave them, before conversion and checks. *)
Record argv : Set := mkArgv {
  arg_input : option string;
  arg_output : option string;
  arg_batch : bool;
  arg_quality : option string;
  arg_preset : option string;
  arg_audio : option string;
  arg_subtitles : bool
}.

Record namespace : Set := mkNamespace {
  ns_input : option string;
  ns_output : option string;
  ns_batch : bool;
  ns_quality : Z;
  ns_preset : string;
  ns_audio : Z;
  ns_subtitles : bool
}.

Definition presets : list string :=
  ["ultrafast"; "superfast"; "veryfast"; "faster"; "fast"; "medium"; "slow";
   "slower"; "veryslow"].

(** An option with [type=int]: [None] is the parser's error. *)
Definition int_option (default : Z) (given : option string) : option Z :=
  match given with
  | None => Some default
  | Some s => match int s with Ret z => Some z | Raise _ => None end
  end.

(** [parser.parse_args()]: [None] when the parser rejects the command
    line, which ends the program with status 2. *)
Definition parse_args (a : argv) : option namespace :=
  q ← int_option 22 (arg_quality a);
  if negb ((0 <=? q) && (q <? 52)) then None else
  let p := default "slow" (arg_preset a) in
  if negb (existsb (String.eqb p) presets) then None else
  b ← int_option 192 (arg_audio a);
  Some (mkNamespace (arg_input a) (arg_output a) (arg_batch a) q p b (arg_subtitles a)).

(** The converter [main] builds from the parsed options. *)
Definition converter_of (args : namespace) : PlexConverter :=
  init (ns_quality args) (ns_preset args) (pretty (ns_audio args) +:+ "k") (ns_subtitles args).

(** [main]; the value is the exit status.  What the argument parser
    itself writes when it rejects the options is not part of the trace. *)
Definition main (E : env) (a : argv) : M Z :=
  match parse_args a with
  | None => ret 2
  | Some args =>
      let converter := converter_of args in
      ok ← check_ffmpeg E;
      if negb ok then
        print "Error: FFmpeg is not installed or not in PATH.";;
        print "Please install FFmpeg first: https://ffmpeg.org/download.html";;
        ret 1
      else if ns_batch args then
        batch_convert converter E ".";; ret 0
      else match ns_input args with
           | Some (String _ _ as i) =>
               convert_file converter E (PStr i) (PStr <$> ns_output args);; ret 0
           | _ => emit PrintHelp;; ret 1
           end
  end.

(** ** Worlds reached along a run *)

Definition add_events (w : world) (evs : list event) : world :=
  mkWorld (fs w) (stdin w) (trace w ++ evs).

(** The world once [convert_file] has printed its three opening lines. *)
Definition announced (self : PlexConverter) (input_path output_file : Path) (w : world)
  : world :=
  add_events w
    [Print ("Converting: " +:+ name input_path);
     Print ("Output: " +:+ to_str output_file);
     Print ("Quality: CRF " +:+ pretty (quality self) +:+ ", Preset: " +:+ preset self)].

(** The world once the overwrite question has been asked and answered. *)
Definition asked (output_file : Path) (rest : list string) (w : world) : world :=
  mkWorld (fs w) rest
    (trace w ++ [Input ("Output file '" +:+ to_str output_file
                        +:+ "' already exists. Overwrite? [y/N]: ")]).

(** What the handler of [KeyboardInterrupt] adds to the trace when the
    child had been started. *)
Definition cancelled_events (output_file : Path) (w : world) : list event :=
  [Print (nl +:+ nl +:+ "Conversion cancelled by user."); Terminate]
  ++ (if bool_decide (is_Some (fs w !! to_str output_file))
      then [Unlink (to_str output_file)] else []).

(** The world in which [batch_convert] calls [convert_file] on the file
    at position [i] of [n]. *)
Definition processing (n i : nat) (file : Path) (w : world) : world :=
  add_events w
    [Print (nl +:+ "[" +:+ pretty i +:+ "/" +:+ pretty n +:+ "] Processing: " +:+ name file)].

(** [runs self E n i files w oks w'] holds when calling [convert_file] on
    each of [files] in turn, the first in the world [w] (after the line
    that announces it), each next one in the world its predecessor left,
    returns the booleans [oks] and ends in [w']. *)
Inductive runs (self : PlexConverter) (E : env) (n : nat)
  : nat -> list Path -> world -> list bool -> world -> Prop :=
  | runs_nil i w : runs self E n i [] w [] w
  | runs_cons i file rest w ok w1 oks w2 :
      convert_file self E (PPath file) None (processing n i file w) = (Ret ok, w1) ->
      runs self E n (S i) rest w1 oks w2 ->
      runs self E n i (file :: rest) w (ok :: oks) w2.

(** How many of the outcomes are [True], and how many are [False]. *)
Definition successes (oks : list bool) : nat := length (List.filter (fun b => b) oks).
Definition failures (oks : list bool) : nat := length (List.filter negb oks).


(** ** Shapes of strings *)

(** Every character of [s] satisfies [P]. *)
Fixpoint all_chars (P : ascii -> bool) (s : string) : bool :=
  match s with
  | EmptyString => true
  | String c s' => P c && all_chars P s'
  end.

Definition is_digit (c : ascii) : bool :=
  match digit_of c with Some _ => true | None => false end.

Definition other_than (c a : ascii) : bool := negb (Ascii.eqb a c).

(** A non-empty string of decimal digits. *)
Definition is_number (s : string) : bool :=
  negb (String.eqb s "") && all_chars is_digit s.

(** The number that a string of decimal digits denotes. *)
Fixpoint decimal_from (acc : Z) (s : string) : Z :=
  match s with
  | EmptyString => acc
  | String c s' => decimal_from (10 * acc + default 0 (digit_of c)) s'
  end.

Definition decimal (s : string) : Z := decimal_from 0 s.

(** The digits of a string of decimal digits. *)
Fixpoint digits (s : string) : list Z :=
  match s with
  | EmptyString => []
  | String c s' => default 0 (digit_of c) :: digits s'
  end.

(** Where a run of digits stops: at the end of the string, or before a
    character that is neither a digit nor an underscore. *)
Definition stops (rest : string) : bool :=
  match rest with
  | EmptyString => true
  | String c _ => negb (is_digit c) && other_than "_" c
  end.

(** The seconds field [SS] or [SS.fraction]. *)
Definition seconds_field (ip : string) (fp : option string) : string :=
  ip +:+ match fp with Some f => "." +:+ f | None => "" end.

(** The float nearest to the decimal number [ip.fp]. *)
Definition seconds_value (ip : string) (fp : option string) : float :=
  let f := default "" fp in
  dec2F false (decimal (ip +:+ f)) (- Z.of_nat (String.length f)).

(** The path beside [p] that [convert_file] derives when it is given no
    output. *)
Definition beside (p : Path) : Path :=
  mkPath (root p) (removelast (parts p) ++ [stem p +:+ "_plex.mp4"]).

(** ** Concrete scenarios *)

(** The default configuration of the command line. *)
Definition plex : PlexConverter := init 22 "slow" "192k" false.

Definition movie : content := [Byte.x00; Byte.x01; Byte.x02; Byte.x03].
Definition old_output : content := [Byte.xca; Byte.xfe].
Definition partial_output : content := [Byte.x00; Byte.x00].

(** A prober that reports 100 seconds and an encoder that prints [lines],
    leaves [d] at its output path and ends as [fin]. *)
Definition encoder (lines : list string) (d : option content) (fin : ending) : env :=
  mkEnv (fun _ => ProbeStdout "100.0") (fun _ => Spawns (mkProcess lines d fin)) true
        (fun _ => ["a.mkv"; "notes.txt"; "b.mp4"]).

(** Only the input is there, and nobody at the terminal. *)
Definition w_fresh : world := mkWorld {[ "movie.mkv" := movie ]} [] [].

(** The output is there too, and the user will answer [n]. *)
Definition w_taken : world :=
  mkWorld (<["movie_plex.mp4" := old_output]> {[ "movie.mkv" := movie ]}) ["n"] [].

(** A directory of three candidates: the encoder fails on [b.mkv], and
    [c.mkv] has gone by the time it is converted. *)
Definition studio : env :=
  mkEnv (fun _ => ProbeStdout "100.0")
        (fun cmd => Spawns (mkProcess [] (Some partial_output)
                              (if String.eqb (nth 2 cmd "") "b.mkv" then Exits 1 else Exits 0)))
        true
        (fun _ => ["a.mkv"; "b.mkv"; "c.mkv"]).


Definition w_shelf : world :=
  mkWorld (<["a.mkv" := movie]> {[ "b.mkv" := movie ]}) [] [].

(** ** Outcomes that do not depend on the world *)

(** A world with no file, no answer and no history. *)
Definition nowhere : world := mkWorld ∅ [] [].

(** What [get_duration] returns or raises for a path. *)
Definition probe_outcome (E : env) (file_path : Path) : result (option float) :=
  (get_duration E file_path nowhere).1.

(** How the monitoring loop ends on these lines, and what it prints. *)
Definition monitor_outcome (duration : option float) (lines : list string) : result unit :=
  (monitor duration lines nowhere).1.

Definition monitor_events (duration : option float) (lines : list string) : list event :=
  trace (monitor duration lines nowhere).2.

(** The filesystem once the child has left its output. *)
Definition after_child (output_file : Path) (c : process) (m : gmap string content)
  : gmap string content :=
  match written c with
  | Some b => <[to_str output_file := b]> m
  | None => m
  end.

(** The command line of the prober. *)
Definition probe_cmd (file_path : Path) : list string :=
  ["ffprobe"; "-v"; "error"; "-show_entries"; "format=duration";
   "-of"; "default=noprint_wrappers=1:nokey=1"; to_str file_path].

(** How a run of [convert_file] gets to its [try] block in the world
    [w0]: nothing is at the output path, or the user agrees to overwrite
    what is there. *)
Definition starts (out : Path) (w w0 : world) : Prop :=
  (fs w !! to_str out = None /\ w0 = w)
  \/ (is_Some (fs w !! to_str out)
      /\ exists ans rest, stdin w = ans :: rest /\ lower ans = "y" /\ w0 = asked out rest w).

(** The truth value of [duration] in [if duration and ...]: false for
    [None] and for a zero. *)
Definition known (duration : option float) : bool :=
  match duration with
  | Some d => truthy d
  | None => false
  end.

(** The line that closes a run whose child has exited. *)
Definition verdict (returncode : Z) : event :=
  Print (nl +:+ (if returncode =? 0 then "✓ Conversion completed successfully!"
                 else "✗ Conversion failed!")).

(** What the listing of the candidates prints, numbered from [i]. *)
Fixpoint listing (i : nat) (files : list Path) : list event :=
  match files with
  | [] => []
  | file :: rest => Print (pretty i +:+ ". " +:+ name file) :: listing (S i) rest
  end.

(** The question that [batch_convert] asks. *)
Definition proceed_question : event :=
  Input (nl +:+ "Proceed with batch conversion? [y/N]: ").

(** The world once [main] has looked for the encoder. *)
Definition checked (w : world) : world := add_events w [Run ["ffmpeg"; "-version"]].

(** The token of a line whose hours no float can hold. *)
Definition endless : string :=
  "1" +:+ String.concat "" (repeat "0000000000" 31) +:+ ":00:00.00".

(** ** The numbers that floats stand for *)

(** The rational number that a finite float is. *)
Definition F2Q (f : float) : option Q :=
  match f with
  | S754_zero _ => Some (inject_Z 0)
  | S754_finite s m e =>
      let n := if s then Zneg m else Zpos m in
      Some (match e with
            | Z0 => inject_Z n
            | Zpos p => inject_Z (n * 2 ^ Zpos p)
            | Zneg p => Qmake n (2 ^ p)
            end)
  | _ => None
  end.

(** The float of 53 bits that holds a positive integer below 2^53. *)
Definition canon (z : positive) : float :=
  let d := Zpos (digits2_pos z) in
  S754_finite false (Z.to_pos (Zpos z * 2 ^ (53 - d))) (d - 53).



(** ** Paths as they are written *)

(** A component of a written path: not empty, not [.], and free of [/]. *)
Definition component (c : string) : bool :=
  kept c && all_chars (other_than "/") c.

(** The text of the path with the components [l], from the root when
    [absolute] and relative otherwise. *)
Definition path_text (absolute : bool) (l : list string) : string :=
  (if absolute then "/" else "") +:+ join "/" l.

(** * Properties *)

(** ** Running the monad *)

Lemma bind_ret {A B} (m : M A) (k : A -> M B) (w w' : world) (a : A) :
  m w = (Ret a, w') -> (m ≫= k) w = k a w'.
Proof. intros H. unfold mbind, M_bind. now rewrite H. Qed.

Lemma bind_raise {A B} (m : M A) (k : A -> M B) (w w' : world) (e : exn) :
  m w = (Raise e, w') -> (m ≫= k) w = (Raise e, w').
Proof. intros H. unfold mbind, M_bind. now rewrite H. Qed.

Lemma emit_run (e : event) (w : world) : emit e w = (Ret tt, add_events w [e]).
Proof. reflexivity. Qed.

Lemma print_run (s : string) (w : world) : print s w = (Ret tt, add_events w [Print s]).
Proof. reflexivity. Qed.

Lemma exists_run (p : Path) (w : world) :
  exists_ p w = (Ret (bool_decide (is_Some (fs w !! to_str p))), w).
Proof. reflexivity. Qed.

Lemma add_events_app (w : world) (l1 l2 : list event) :
  add_events (add_events w l1) l2 = add_events w (l1 ++ l2).
Proof. unfold add_events; cbn. now rewrite <- app_assoc. Qed.

Lemma lift_run {A} (r : result A) (w : world) : lift r w = (r, w).
Proof. reflexivity. Qed.

Lemma input_run (prompt l : string) (rest : list string) (w : world) :
  stdin w = l :: rest ->
  input prompt w = (Ret l, mkWorld (fs w) rest (trace w ++ [Input prompt])).
Proof. intros H. unfold input. now rewrite H. Qed.

(** ** The paths through [convert_file] *)

Lemma convert_run (self : PlexConverter) (E : env) (p out : Path) (w : world) :
  convert self E p out w
  = try_except E (build_cmd self p out) p out (announced self p out w).
Proof.
  unfold convert.
  repeat (erewrite bind_ret by apply print_run).
  rewrite !add_events_app. reflexivity.
Qed.

Section Paths.
Variables (self : PlexConverter) (E : env).
Variables (input_file : pathlike) (output_file : option pathlike).
Variables (out : Path) (w : world).
Hypothesis Hin : is_Some (fs w !! to_str (Path_ input_file)).
Hypothesis Hout : resolve_output (Path_ input_file) output_file = Ret out.

Lemma convert_file_resolved :
  convert_file self E input_file output_file w
  = (there ← exists_ out;
     if there : bool then
       overwrite ← input ("Output file '" +:+ to_str out
                          +:+ "' already exists. Overwrite? [y/N]: ");
       if negb (String.eqb (lower overwrite) "y")
       then print "Skipping...";; ret false
       else convert self E (Path_ input_file) out
     else convert self E (Path_ input_file) out) w.
Proof.
  unfold convert_file.
  erewrite bind_ret by apply exists_run.
  rewrite bool_decide_eq_true_2 by exact Hin. cbn [negb].
  erewrite bind_ret by (rewrite Hout; apply lift_run).
  reflexivity.
Qed.

(** No file at the output path: the conversion starts at once. *)
Lemma convert_file_fresh :
  fs w !! to_str out = None ->
  convert_file self E input_file output_file w
  = convert self E (Path_ input_file) out w.
Proof.
  intros Hnone. rewrite convert_file_resolved.
  erewrite bind_ret by apply exists_run.
  rewrite Hnone, bool_decide_eq_false_2 by (intros [x Hx]; discriminate).
  reflexivity.
Qed.

(** A file at the output path and an answer other than [y]. *)
Lemma convert_file_declined (ans : string) (rest : list string) :
  is_Some (fs w !! to_str out) ->
  stdin w = ans :: rest ->
  lower ans <> "y" ->
  convert_file self E input_file output_file w
  = (Ret false, add_events (asked out rest w) [Print "Skipping..."]).
Proof.
  intros Hsome Hstdin Hans. rewrite convert_file_resolved.
  erewrite bind_ret by apply exists_run.
  rewrite bool_decide_eq_true_2 by exact Hsome.
  erewrite bind_ret by (apply input_run; exact Hstdin).
  apply String.eqb_neq in Hans. rewrite Hans. cbn [negb].
  erewrite bind_ret by apply print_run. reflexivity.
Qed.

(** A file at the output path and the answer [y]. *)
Lemma convert_file_overwrite (ans : string) (rest : list string) :
  is_Some (fs w !! to_str out) ->
  stdin w = ans :: rest ->
  lower ans = "y" ->
  convert_file self E input_file output_file w
  = convert self E (Path_ input_file) out (asked out rest w).
Proof.
  intros Hsome Hstdin Hans. rewrite convert_file_resolved.
  erewrite bind_ret by apply exists_run.
  rewrite bool_decide_eq_true_2 by exact Hsome.
  erewrite bind_ret by (apply input_run; exact Hstdin).
  apply String.eqb_eq in Hans. rewrite Hans. reflexivity.
Qed.

End Paths.

(** ** The handlers of the [try] statement *)

Lemma unlink_run (p : Path) (w : world) (d : content) :
  fs w !! to_str p = Some d ->
  unlink p w = (Ret tt, mkWorld (delete (to_str p) (fs w)) (stdin w)
                                (trace w ++ [Unlink (to_str p)])).
Proof. intros H. unfold unlink. now rewrite H. Qed.

Lemma on_interrupt_bound (out : Path) (w : world) :
  on_interrupt true out w
  = (Ret false,
     mkWorld (delete (to_str out) (fs w)) (stdin w)
             (trace w ++ cancelled_events out w)).
Proof.
  unfold on_interrupt, cancelled_events.
  erewrite bind_ret by apply print_run.
  erewrite bind_ret by apply emit_run.
  erewrite bind_ret by apply exists_run.
  cbn [add_events fs stdin trace].
  destruct (fs w !! to_str out) as [d|] eqn:Hd.
  - rewrite bool_decide_eq_true_2 by eauto.
    erewrite bind_ret by (apply (unlink_run _ _ d); cbn; exact Hd).
    unfold ret, mret, M_ret; cbn. now rewrite <- !app_assoc.
  - rewrite bool_decide_eq_false_2 by (intros [x Hx]; discriminate).
    rewrite delete_id by exact Hd. unfold ret, mret, mbind, M_ret, M_bind, add_events; cbn.
    now rewrite <- !app_assoc.
Qed.

Lemma on_interrupt_unbound (out : Path) (w : world) :
  on_interrupt false out w
  = (Raise UnboundLocalError,
     add_events w [Print (nl +:+ nl +:+ "Conversion cancelled by user.")]).
Proof. reflexivity. Qed.

Lemma try_except_interrupted (E : env) (cmd : list string) (p out : Path)
  (w w1 : world) (bound : bool) :
  try_block E cmd p out w = (Raise KeyboardInterrupt, bound, w1) ->
  try_except E cmd p out w = on_interrupt bound out w1.
Proof. intros H. unfold try_except. now rewrite H. Qed.

Lemma try_except_returns (E : env) (cmd : list string) (p out : Path)
  (w w1 : world) (b bound : bool) :
  try_block E cmd p out w = (Ret b, bound, w1) ->
  try_except E cmd p out w = (Ret b, w1).
Proof. intros H. unfold try_except. now rewrite H. Qed.

Lemma try_except_exception (E : env) (cmd : list string) (p out : Path)
  (w w1 : world) (e : exn) (bound : bool) :
  is_Exception e = true ->
  try_block E cmd p out w = (Raise e, bound, w1) ->
  try_except E cmd p out w = (Ret false, add_events w1 [PrintError e]).
Proof.
  intros He H. unfold try_except. rewrite H.
  destruct e; try discriminate; reflexivity.
Qed.

(** An interrupt while the prober runs finds [process] unbound: the
    handler itself fails, and the error leaves the [try] statement. *)
Lemma try_except_probe_interrupted (E : env) (cmd : list string) (p out : Path)
  (w : world) :
  (get_duration E p w).1 = Raise KeyboardInterrupt ->
  (try_except E cmd p out w).1 = Raise UnboundLocalError.
Proof.
  intros H. unfold try_except, try_block.
  destruct (get_duration E p w) as [[d|e] w1]; cbn in H; [discriminate|].
  injection H as ->. reflexivity.
Qed.

(** ** C6: a missing input *)

Lemma convert_file_missing (self : PlexConverter) (E : env)
  (input_file : pathlike) (output_file : option pathlike) (w : world) :
  fs w !! to_str (Path_ input_file) = None ->
  convert_file self E input_file output_file w
  = (Ret false,
     add_events w [Print ("Error: File '" +:+ fmt input_file +:+ "' does not exist.")]).
Proof.
  intros Hmiss. unfold convert_file.
  erewrite bind_ret by apply exists_run.
  rewrite Hmiss. rewrite bool_decide_eq_false_2 by (intros [x Hx]; discriminate).
  cbn [negb]. erewrite bind_ret by apply print_run. reflexivity.
Qed.

(** C6. When the input path does not exist, [convert_file] returns
    [False]; all it does is print the error message: no program is run,
    no child is spawned, nothing is read from the terminal, and the
    filesystem is as it was. *)
Theorem C6_missing_input_fails (self : PlexConverter) (E : env)
  (input_file : pathlike) (output_file : option pathlike) (w : world) :
  fs w !! to_str (Path_ input_file) = None ->
  convert_file self E input_file output_file w
  = (Ret false,
     mkWorld (fs w) (stdin w)
       (trace w ++ [Print ("Error: File '" +:+ fmt input_file +:+ "' does not exist.")])).
Proof. intros Hmiss. now apply convert_file_missing. Qed.

Lemma C6_missing_input_fails_witness :
  convert_file plex (encoder [] None (Exits 0)) (PStr "absent.mkv") None w_fresh
  = (Ret false,
     mkWorld (fs w_fresh) [] [Print "Error: File 'absent.mkv' does not exist."]).
Proof.
  apply (C6_missing_input_fails plex (encoder [] None (Exits 0)) (PStr "absent.mkv") None w_fresh).
  reflexivity.
Defined.

(** ** C8: declining to overwrite *)

(** C8 (as stated, refuted). A run that is skipped at the overwrite
    question and a run whose encoder exits with status 1 return the same
    value, [False]: the skipped outcome is not distinct from the failed
    one. *)
Lemma C8_skipped_equals_failed :
  let skipped := (convert_file plex (encoder [] None (Exits 0)) (PStr "movie.mkv") None w_taken).1 in
  let failed := (convert_file plex (encoder [] None (Exits 1)) (PStr "movie.mkv") None w_fresh).1 in
  skipped = Ret false /\ failed = Ret false /\ ~ skipped <> failed.
Proof. vm_compute. split; [reflexivity|]. split; [reflexivity|]. intros H; now apply H. Qed.

(** C8 (amended). When the resolved output path holds a file and the
    answer to the overwrite question is not [y], [convert_file] returns
    [False], the value it also returns for a failure; it asks the
    question and prints [Skipping...], runs no program, and leaves the
    filesystem, the output file included, as it was. *)
Theorem C8_declined_leaves_output (self : PlexConverter) (E : env)
  (input_file : pathlike) (output_file : option pathlike) (out : Path)
  (w : world) (d : content) (ans : string) (rest : list string) :
  is_Some (fs w !! to_str (Path_ input_file)) ->
  resolve_output (Path_ input_file) output_file = Ret out ->
  fs w !! to_str out = Some d ->
  stdin w = ans :: rest ->
  lower ans <> "y" ->
  exists w',
    convert_file self E input_file output_file w = (Ret false, w')
    /\ fs w' = fs w
    /\ fs w' !! to_str out = Some d
    /\ trace w' = trace w ++ [Input ("Output file '" +:+ to_str out
                                     +:+ "' already exists. Overwrite? [y/N]: ");
                              Print "Skipping..."].
Proof.
  intros Hin Hout Hd Hstdin Hans. eexists. split.
  - eapply convert_file_declined; eauto.
  - cbn. split; [reflexivity|]. split; [exact Hd|]. now rewrite <- app_assoc.
Qed.

Lemma C8_declined_leaves_output_witness :
  exists w',
    convert_file plex (encoder [] None (Exits 0)) (PStr "movie.mkv") None w_taken
    = (Ret false, w')
    /\ fs w' = fs w_taken
    /\ fs w' !! "movie_plex.mp4" = Some old_output
    /\ trace w' = [Input "Output file 'movie_plex.mp4' already exists. Overwrite? [y/N]: ";
                   Print "Skipping..."].
Proof.
  apply (C8_declined_leaves_output plex (encoder [] None (Exits 0)) (PStr "movie.mkv") None
           (of_str "movie_plex.mp4") w_taken old_output "n" []).
  - vm_compute. eauto.
  - reflexivity.
  - reflexivity.
  - reflexivity.
  - discriminate.
Defined.

(** ** C3: cancellation *)

(** C3. Take a run of [convert_file] that gets to its [try] block: the
    input exists, the output path is resolved, and either nothing is at
    that path or the user agreed to overwrite it.  When
    [KeyboardInterrupt] is raised inside the [try] block after [Popen]
    has started the child, [convert_file] prints the cancellation
    message, calls [process.terminate()], unlinks the output file if it
    is there, and returns [False], the value the code has for a
    cancelled run; no file is left at the resolved output path. *)
Theorem C3_cancel_removes_output (self : PlexConverter) (E : env)
  (input_file : pathlike) (output_file : option pathlike) (out : Path) (w w0 : world) :
  is_Some (fs w !! to_str (Path_ input_file)) ->
  resolve_output (Path_ input_file) output_file = Ret out ->
  (fs w !! to_str out = None /\ w0 = w)
  \/ (is_Some (fs w !! to_str out)
      /\ exists ans rest, stdin w = ans :: rest /\ lower ans = "y" /\ w0 = asked out rest w) ->
  let t := try_block E (build_cmd self (Path_ input_file) out) (Path_ input_file) out
             (announced self (Path_ input_file) out w0) in
  t.1 = (Raise KeyboardInterrupt, true) ->
  exists w',
    convert_file self E input_file output_file w = (Ret false, w')
    /\ trace w' = trace t.2 ++ cancelled_events out t.2
    /\ In Terminate (cancelled_events out t.2)
    /\ (is_Some (fs t.2 !! to_str out) -> In (Unlink (to_str out)) (cancelled_events out t.2))
    /\ fs w' = delete (to_str out) (fs t.2)
    /\ fs w' !! to_str out = None.
Proof.
  intros Hin Hout Hstart t Ht.
  assert (Hconv : convert_file self E input_file output_file w
                  = convert self E (Path_ input_file) out w0).
  { destruct Hstart as [[Hfree ->]|(Hthere & ans & rest & Hstdin & Hans & ->)].
    - now apply convert_file_fresh.
    - now apply (convert_file_overwrite _ _ _ _ _ _ Hin Hout ans rest). }
  destruct t as [[r b] w1] eqn:Et. cbn in Ht.
  injection Ht as -> ->. eexists. split.
  - rewrite Hconv, convert_run. erewrite try_except_interrupted by exact Et.
    apply on_interrupt_bound.
  - cbn [fs trace snd]. split; [reflexivity|].
    split; [unfold cancelled_events; cbn; auto|].
    split.
    + intros Hs. unfold cancelled_events.
      rewrite bool_decide_eq_true_2 by exact Hs. cbn. auto.
    + split; [reflexivity|]. apply lookup_delete_eq.
Qed.

Lemma C3_cancel_removes_output_witness :
  exists w',
    convert_file plex (encoder ["frame=1 time=00:00:01.00 bitrate=1"] (Some partial_output) Interrupted)
      (PStr "movie.mkv") None w_fresh = (Ret false, w')
    /\ In Terminate (trace w')
    /\ In (Unlink "movie_plex.mp4") (trace w')
    /\ fs w' !! "movie_plex.mp4" = None.
Proof.
  set (E := encoder ["frame=1 time=00:00:01.00 bitrate=1"] (Some partial_output) Interrupted).
  destruct (C3_cancel_removes_output plex E (PStr "movie.mkv") None
              (of_str "movie_plex.mp4") w_fresh w_fresh)
    as (w' & Hrun & Htr & _ & _ & _ & Hgone).
  - vm_compute. eauto.
  - reflexivity.
  - left. split; reflexivity.
  - reflexivity.
  - exists w'. split; [exact Hrun|].
    rewrite Htr. split; [|split].
    + apply in_or_app. right. vm_compute. auto.
    + apply in_or_app. right. vm_compute. auto.
    + exact Hgone.
Defined.

(** ** The batch loop *)

Lemma batch_loop_step (self : PlexConverter) (E : env) (n i : nat) (file : Path)
  (rest : list Path) (s f : nat) (w w1 : world) (ok : bool) :
  convert_file self E (PPath file) None (processing n i file w) = (Ret ok, w1) ->
  batch_loop self E n i (file :: rest) s f w
  = batch_loop self E n (S i) rest (if ok then S s else s) (if ok then f else S f) w1.
Proof.
  intros H. cbn [batch_loop].
  erewrite bind_ret by apply print_run.
  erewrite bind_ret by exact H.
  now destruct ok.
Qed.

Lemma batch_loop_raise (self : PlexConverter) (E : env) (n i : nat) (file : Path)
  (rest : list Path) (s f : nat) (w w1 : world) (e : exn) :
  convert_file self E (PPath file) None (processing n i file w) = (Raise e, w1) ->
  batch_loop self E n i (file :: rest) s f w = (Raise e, w1).
Proof.
  intros H. cbn [batch_loop].
  erewrite bind_ret by apply print_run.
  now erewrite bind_raise by exact H.
Qed.





Lemma supervise_exit (duration : option float) (c : process) (w w1 : world) (rc : Z) :
  monitor duration (stderr c) w = (Ret tt, w1) ->
  finish c = Exits rc ->
  supervise duration c w
  = (Ret (rc =? 0),
     add_events w1 [Wait; Print (nl +:+ (if rc =? 0 then "✓ Conversion completed successfully!"
                                         else "✗ Conversion failed!"))]).
Proof.
  intros Hm Hf. unfold supervise.
  erewrite bind_ret by exact Hm. rewrite Hf.
  erewrite bind_ret by apply emit_run.
  destruct (rc =? 0); erewrite bind_ret by apply print_run;
    rewrite add_events_app; reflexivity.
Qed.

(** ** C10: one boolean for every outcome *)

(** C10. [convert_file] returns a [bool].  It returns [False] when the
    overwrite question is declined, [False] when the run is cancelled
    while the child runs, and [False] when the encoder exits with a
    non-zero status; and whenever it returns [False] the batch loop adds
    one to [failed] and goes on, so the report counts skipped and
    cancelled files as failures. *)
Theorem C10_one_boolean (self : PlexConverter) (E : env) :
  (forall input_file output_file out w ans rest,
      is_Some (fs w !! to_str (Path_ input_file)) ->
      resolve_output (Path_ input_file) output_file = Ret out ->
      is_Some (fs w !! to_str out) ->
      stdin w = ans :: rest ->
      lower ans <> "y" ->
      (convert_file self E input_file output_file w).1 = Ret false)
  /\ (forall input_path out w,
         (try_block E (build_cmd self input_path out) input_path out
            (announced self input_path out w)).1 = (Raise KeyboardInterrupt, true) ->
         (convert self E input_path out w).1 = Ret false)
  /\ (forall duration c w w1 rc,
         monitor duration (stderr c) w = (Ret tt, w1) ->
         finish c = Exits rc ->
         rc <> 0 ->
         (supervise duration c w).1 = Ret false)
  /\ (forall n i file rest s f w w1,
         convert_file self E (PPath file) None (processing n i file w) = (Ret false, w1) ->
         batch_loop self E n i (file :: rest) s f w
         = batch_loop self E n (S i) rest s (S f) w1).
Proof.
  repeat split.
  - intros i o out w ans rest Hin Hout Hthere Hstdin Hans.
    now erewrite convert_file_declined by eauto.
  - intros p out w Ht.
    destruct (try_block _ _ _ _ _) as [[r b] w1] eqn:Et. cbn in Ht.
    injection Ht as -> ->.
    rewrite convert_run. erewrite try_except_interrupted by exact Et.
    now rewrite on_interrupt_bound.
  - intros d c w w1 rc Hm Hf Hrc.
    erewrite supervise_exit by eauto. cbn.
    apply Z.eqb_neq in Hrc. now rewrite Hrc.
  - intros n i file rest s f w w1 H.
    now erewrite batch_loop_step by exact H.
Qed.

Lemma C10_one_boolean_witness :
  (convert_file plex (encoder [] None (Exits 0)) (PStr "movie.mkv") None w_taken).1 = Ret false
  /\ (convert plex (encoder [] (Some partial_output) Interrupted)
        (of_str "movie.mkv") (of_str "movie_plex.mp4") w_fresh).1 = Ret false
  /\ (supervise None (mkProcess [] None (Exits 1)) w_fresh).1 = Ret false
  /\ batch_loop plex studio 3 3 [of_str "c.mkv"] 1 1 w_shelf
     = batch_loop plex studio 3 4 [] 1 2
         (add_events (processing 3 3 (of_str "c.mkv") w_shelf)
            [Print "Error: File 'c.mkv' does not exist."]).
Proof.
  destruct (C10_one_boolean plex (encoder [] None (Exits 0))) as (Hskip & _ & Hfail & _).
  destruct (C10_one_boolean plex (encoder [] (Some partial_output) Interrupted))
    as (_ & Hcancel & _ & _).
  destruct (C10_one_boolean plex studio) as (_ & _ & _ & Hbatch).
  split; [|split; [|split]].
  - apply (Hskip (PStr "movie.mkv") None (of_str "movie_plex.mp4") w_taken "n" []).
    + vm_compute. eauto.
    + reflexivity.
    + vm_compute. eauto.
    + reflexivity.
    + discriminate.
  - apply Hcancel. reflexivity.
  - apply (Hfail None (mkProcess [] None (Exits 1)) w_fresh w_fresh 1).
    + reflexivity.
    + reflexivity.
    + discriminate.
  - apply Hbatch. reflexivity.
Defined.

(** ** C9: where the quality and the preset are checked *)

(** C9 (as stated, refuted). The constructor takes a quality of 99 and a
    preset that is not in the enumeration, and builds the converter with
    them. *)
Lemma C9_constructor_accepts_anything :
  let c := init 99 "warp" "192k" false in
  quality c = 99 /\ preset c = "warp"
  /\ ~ (0 <= quality c <= 51) /\ ~ In (preset c) presets.
Proof.
  cbn. repeat split; try lia.
  intros H. repeat (destruct H as [H|H]; [discriminate|]). exact H.
Qed.

(** C9 (amended). The constructor stores the quality and the preset it
    is given without any check.  The check is made by the command line
    parser: whenever [parse_args] accepts the options, the quality is
    between 0 and 51 and the preset is one of the nine presets, and
    these are the values [main] constructs the converter with. *)
Theorem C9_checked_by_parser (a : argv) (args : namespace) :
  parse_args a = Some args ->
  0 <= ns_quality args <= 51
  /\ In (ns_preset args) presets
  /\ quality (converter_of args) = ns_quality args
  /\ preset (converter_of args) = ns_preset args
  /\ forall q p b s, quality (init q p b s) = q /\ preset (init q p b s) = p.
Proof.
  unfold parse_args. intros H.
  destruct (int_option 22 (arg_quality a)) as [q|]; [|discriminate].
  cbn [mbind option_bind] in H.
  destruct ((0 <=? q) && (q <? 52)) eqn:Hq; [|discriminate].
  cbn [negb] in H.
  destruct (existsb (String.eqb (default "slow" (arg_preset a))) presets) eqn:Hp;
    [|discriminate].
  cbn [negb] in H.
  destruct (int_option 192 (arg_audio a)) as [b|]; [|discriminate].
  cbn in H. injection H as <-. cbn [ns_quality ns_preset].
  apply andb_true_iff in Hq. destruct Hq as [H1 H2].
  apply Z.leb_le in H1. apply Z.ltb_lt in H2.
  split; [lia|]. split; [|auto].
  apply existsb_exists in Hp. destruct Hp as (x & Hx & Heq).
  apply String.eqb_eq in Heq. now subst x.
Qed.

Lemma C9_checked_by_parser_witness :
  let args := mkNamespace (Some "movie.mkv") None false 18 "veryslow" 192 true in
  0 <= ns_quality args <= 51 /\ In (ns_preset args) presets
  /\ parse_args (mkArgv (Some "movie.mkv") None false (Some "52") None None false) = None
  /\ parse_args (mkArgv (Some "movie.mkv") None false None (Some "warp") None false) = None.
Proof.
  intros args.
  destruct (C9_checked_by_parser
              (mkArgv (Some "movie.mkv") None false (Some "18") (Some "veryslow") None true) args)
    as (Hq & Hp & _).
  - reflexivity.
  - split; [exact Hq|]. split; [exact Hp|]. split; reflexivity.
Defined.

(** ** Strings *)

Lemma prefix_empty (s : string) : String.prefix "" s = true.
Proof. now destruct s. Qed.

Lemma all_chars_app (P : ascii -> bool) (a b : string) :
  all_chars P (a +:+ b) = all_chars P a && all_chars P b.
Proof. induction a as [|c a IH]; simpl; [reflexivity|]. now rewrite IH, andb_assoc. Qed.

Lemma all_chars_substring (P : ascii -> bool) (s : string) (m : nat) :
  all_chars P s = true -> all_chars P (String.substring 0 m s) = true.
Proof.
  revert m. induction s as [|c s IH]; intros [|m] H; cbn in *; try reflexivity.
  apply andb_true_iff in H. destruct H as [Hc Hs].
  now rewrite Hc, IH.
Qed.

Lemma all_chars_impl (P Q : ascii -> bool) (s : string) :
  (forall c, P c = true -> Q c = true) ->
  all_chars P s = true -> all_chars Q s = true.
Proof.
  intros HPQ. induction s as [|c s IH]; cbn; [reflexivity|].
  intros H. apply andb_true_iff in H. destruct H as [Hc Hs].
  now rewrite (HPQ _ Hc), IH.
Qed.

(** A string without the character [c] does not contain the string [c]. *)
Lemma contains_char_free (c : ascii) (s : string) :
  all_chars (other_than c) s = true -> contains (String c "") s = false.
Proof.
  induction s as [|a s IH]; cbn; [reflexivity|].
  intros H. apply andb_true_iff in H. destruct H as [Ha Hs].
  destruct (ascii_dec c a) as [->|Hne].
  - unfold other_than in Ha. now rewrite Ascii.eqb_refl in Ha.
  - now apply IH.
Qed.

(** The pieces of a split at one character do not have that character. *)
Lemma split_char_pieces (c : ascii) (s : string) :
  Forall (fun x => all_chars (other_than c) x = true) (split (String c "") s).
Proof.
  unfold split. induction s as [|a s IH]; cbn.
  - repeat constructor.
  - destruct (ascii_dec c a) as [->|Hne].
    + rewrite prefix_empty. constructor; [reflexivity|exact IH].
    + destruct (split_go (String c "") s 0) as [|h t]; cbn.
      * repeat constructor. cbn. unfold other_than.
        apply Ascii.eqb_neq in Hne. rewrite Ascii.eqb_sym, Hne. reflexivity.
      * inversion IH as [|? ? Hh Ht]; subst. constructor; [|exact Ht].
        cbn. rewrite Hh. unfold other_than.
        apply Ascii.eqb_neq in Hne. rewrite Ascii.eqb_sym, Hne. reflexivity.
Qed.

Lemma last_in (l : list string) : List.last l "" <> "" -> In (List.last l "") l.
Proof.
  induction l as [|x l IH]; cbn; [congruence|].
  destruct l as [|y l]; [auto|]. intros H. right. now apply IH.
Qed.

(** ** C7: the output path derived from the input *)

Lemma of_str_parts (s x : string) :
  In x (parts (of_str s)) -> all_chars (other_than "/") x = true.
Proof.
  cbn. intros H. apply filter_In in H. destruct H as [H _].
  pose proof (split_char_pieces "/" s) as HF.
  rewrite List.Forall_forall in HF. now apply HF.
Qed.

Lemma stem_chars (P : ascii -> bool) (p : Path) :
  all_chars P (name p) = true -> all_chars P (stem p) = true.
Proof.
  intros H. unfold stem.
  destruct (rfind "." (name p)) as [i|]; [|exact H].
  destruct ((0 <? i)%nat && (i <? String.length (name p) - 1)%nat); [|exact H].
  now apply all_chars_substring.
Qed.

Lemma plex_name_valid (a : string) :
  String.eqb (a +:+ "_plex.mp4") "" || String.eqb (a +:+ "_plex.mp4") "." = false.
Proof.
  destruct a as [|c [|c' a]]; simpl; try reflexivity;
    destruct (Ascii.eqb c "."); reflexivity.
Qed.

Lemma with_name_plex (p : Path) :
  name p <> "" ->
  all_chars (other_than "/") (name p) = true ->
  with_name p (stem p +:+ "_plex.mp4") = Ret (beside p).
Proof.
  intros Hn Hs. unfold with_name.
  apply String.eqb_neq in Hn. rewrite Hn.
  rewrite plex_name_valid. cbn [orb].
  rewrite contains_char_free; [reflexivity|].
  rewrite all_chars_app. rewrite (stem_chars _ _ Hs). reflexivity.
Qed.

(** A path without a final component, such as [.] or [/], has no stem to
    derive a name from: [with_name] raises. *)
Lemma resolve_output_no_name (p : Path) :
  name p = "" -> resolve_output p None = Raise ValueError.
Proof. intros H. unfold resolve_output, with_name. now rewrite H. Qed.

(** ** Reading numbers *)

Lemma append_empty_r (s : string) : s +:+ "" = s.
Proof.
  induction s as [|c s IH]; [reflexivity|].
  change (String c (s +:+ "") = String c s). now rewrite IH.
Qed.

Lemma digit_not_space (c : ascii) : is_digit c = true -> is_space c = false.
Proof. destruct c as [[] [] [] [] [] [] [] []]; intros H; try discriminate H; reflexivity. Qed.

Lemma digit_not_underscore (c : ascii) : is_digit c = true -> other_than "_" c = true.
Proof. destruct c as [[] [] [] [] [] [] [] []]; intros H; try discriminate H; reflexivity. Qed.

Lemma digit_not_colon (c : ascii) : is_digit c = true -> other_than ":" c = true.
Proof. destruct c as [[] [] [] [] [] [] [] []]; intros H; try discriminate H; reflexivity. Qed.

Lemma digit_unsigned (c : ascii) (s : string) :
  is_digit c = true -> scan_sign (String c s) = (false, String c s).
Proof. destruct c as [[] [] [] [] [] [] [] []]; intros H; try discriminate H; reflexivity. Qed.

Lemma digit_not_special (c : ascii) (s : string) :
  is_digit c = true ->
  (String.eqb (lower (String c s)) "inf" || String.eqb (lower (String c s)) "infinity") = false
  /\ String.eqb (lower (String c s)) "nan" = false.
Proof.
  destruct c as [[] [] [] [] [] [] [] []]; intros H; try discriminate H; split; reflexivity.
Qed.

Lemma lstrip_word (s : string) : starts_word s = true -> lstrip s = s.
Proof. destruct s as [|c s]; cbn; [discriminate|]. now destruct (is_space c). Qed.

Lemma rstrip_no_space (s : string) :
  all_chars (fun c => negb (is_space c)) s = true -> rstrip s = s.
Proof.
  induction s as [|c s IH]; cbn; [reflexivity|].
  intros H. apply andb_true_iff in H. destruct H as [Hc Hs].
  rewrite (IH Hs). destruct s; [|reflexivity].
  apply negb_true_iff in Hc. now rewrite Hc.
Qed.

Lemma strip_no_space (s : string) :
  all_chars (fun c => negb (is_space c)) s = true -> strip s = s.
Proof.
  intros H. unfold strip.
  destruct s as [|c s]; [reflexivity|].
  rewrite lstrip_word; [now apply rstrip_no_space|].
  cbn in *. now apply andb_true_iff in H.
Qed.

Lemma number_no_space (s : string) :
  all_chars is_digit s = true -> all_chars (fun c => negb (is_space c)) s = true.
Proof.
  apply all_chars_impl. intros c Hc. now rewrite digit_not_space.
Qed.

(** One step of [scan_digits] when no underscore follows the digit. *)
Lemma scan_digits_step (c : ascii) (s : string) (d : Z) :
  digit_of c = Some d ->
  match s with String a _ => other_than "_" a | EmptyString => true end = true ->
  scan_digits (String c s) = let '(ds, r) := scan_digits s in (d :: ds, r).
Proof.
  intros Hd Hs. simpl. rewrite Hd.
  destruct s as [|a s']; [reflexivity|].
  destruct a as [[] [] [] [] [] [] [] []]; try reflexivity; discriminate Hs.
Qed.

Lemma scan_digits_stop (rest : string) :
  match rest with String c _ => negb (is_digit c) | EmptyString => true end = true ->
  scan_digits rest = ([], rest).
Proof.
  destruct rest as [|c r]; [reflexivity|]. unfold is_digit. simpl.
  now destruct (digit_of c).
Qed.

(** A run of digits is read whole, up to where it stops. *)
Lemma scan_digits_run (s rest : string) :
  all_chars is_digit s = true ->
  stops rest = true ->
  scan_digits (s +:+ rest) = (digits s, rest).
Proof.
  intros Hs Hr. induction s as [|c s IH].
  - simpl. apply scan_digits_stop. destruct rest; [reflexivity|].
    cbn in Hr. now apply andb_true_iff in Hr.
  - cbn [all_chars] in Hs. apply andb_true_iff in Hs. destruct Hs as [Hc Hs].
    change (String c s +:+ rest) with (String c (s +:+ rest)).
    unfold is_digit in Hc. destruct (digit_of c) as [d|] eqn:Hd; [|discriminate].
    rewrite (scan_digits_step c (s +:+ rest) d Hd).
    + rewrite (IH Hs). cbn [digits]. now rewrite Hd.
    + destruct s as [|a s'].
      * simpl. destruct rest; [reflexivity|]. cbn in Hr. now apply andb_true_iff in Hr.
      * simpl. cbn [all_chars] in Hs. apply andb_true_iff in Hs.
        now apply digit_not_underscore.
Qed.

Lemma value_digits_from (s : string) (acc : Z) :
  fold_left (fun a d => 10 * a + d) (digits s) acc = decimal_from acc s.
Proof. revert acc. induction s as [|c s IH]; intros acc; cbn; [reflexivity|apply IH]. Qed.

Lemma value_digits (s : string) : value (digits s) = decimal s.
Proof. apply value_digits_from. Qed.

Lemma digits_app (a b : string) : digits (a +:+ b) = digits a ++ digits b.
Proof. induction a as [|c a IH]; simpl; [reflexivity|]. now rewrite IH. Qed.

Lemma digits_length (s : string) : length (digits s) = String.length s.
Proof. induction s as [|c s IH]; simpl; [reflexivity|now rewrite IH]. Qed.

Lemma is_number_inv (s : string) :
  is_number s = true ->
  exists c s', s = String c s' /\ is_digit c = true /\ all_chars is_digit s = true.
Proof.
  unfold is_number. intros H. apply andb_true_iff in H. destruct H as [Hne Hd].
  destruct s as [|c s']; [discriminate|].
  exists c, s'. split; [reflexivity|]. split; [|exact Hd].
  cbn in Hd. now apply andb_true_iff in Hd.
Qed.

(** [int] reads a string of digits as the number it denotes. *)
Lemma int_number (s : string) :
  is_number s = true ->
  (String.length s <= int_max_str_digits)%nat ->
  int s = Ret (decimal s).
Proof.
  intros H Hlen. destruct (is_number_inv s H) as (c & s' & -> & Hc & Hd).
  unfold int. rewrite strip_no_space by now apply number_no_space.
  rewrite digit_unsigned by exact Hc.
  rewrite <- (append_empty_r (String c s')) at 1.
  rewrite scan_digits_run by (exact Hd || reflexivity).
  rewrite <- value_digits.
  rewrite <- (digits_length (String c s')) in Hlen.
  apply Nat.ltb_ge in Hlen.
  cbn [digits] in *. now rewrite Hlen.
Qed.

(** Beyond the limit [int] refuses the digits. *)
Lemma int_too_long (s : string) :
  is_number s = true ->
  (int_max_str_digits < String.length s)%nat ->
  int s = Raise ValueError.
Proof.
  intros H Hlen. destruct (is_number_inv s H) as (c & s' & -> & Hc & Hd).
  unfold int. rewrite strip_no_space by now apply number_no_space.
  rewrite digit_unsigned by exact Hc.
  rewrite <- (append_empty_r (String c s')) at 1.
  rewrite scan_digits_run by (exact Hd || reflexivity).
  rewrite <- (digits_length (String c s')) in Hlen.
  apply Nat.ltb_lt in Hlen.
  cbn [digits] in *. now rewrite Hlen.
Qed.

(** [float] reads [SS] and [SS.fraction] as the nearest float. *)
Lemma float_seconds (ip : string) (fp : option string) :
  is_number ip = true ->
  (forall f, fp = Some f -> all_chars is_digit f = true) ->
  float_of_str (seconds_field ip fp) = Ret (seconds_value ip fp).
Proof.
  intros Hip Hfp. destruct (is_number_inv ip Hip) as (c & s' & -> & Hc & Hd).
  assert (Hns : all_chars (fun c => negb (is_space c)) (seconds_field (String c s') fp) = true).
  { unfold seconds_field. rewrite all_chars_app, (number_no_space _ Hd).
    destruct fp as [f|]; [|reflexivity].
    change ("." +:+ f) with (String "." f). cbn [all_chars andb].
    apply number_no_space, Hfp. reflexivity. }
  unfold float_of_str. rewrite (strip_no_space _ Hns).
  unfold seconds_field in *.
  change (String c s' +:+ ?x) with (String c (s' +:+ x)).
  rewrite digit_unsigned by exact Hc.
  destruct (digit_not_special c (s' +:+ match fp with Some f => "." +:+ f | None => "" end) Hc)
    as [-> ->].
  change (String c (s' +:+ ?x)) with (String c s' +:+ x).
  unfold seconds_value. destruct fp as [f|]; cbn [default].
  - rewrite scan_digits_run by (exact Hd || reflexivity).
    change ("." +:+ f) with (String "." f). cbv iota beta.
    rewrite <- (append_empty_r f) at 1.
    rewrite scan_digits_run by (apply Hfp; reflexivity) || reflexivity.
    rewrite <- digits_app, digits_length. unfold id.
    change (String c s' +:+ f) with (String c (s' +:+ f)).
    cbn [digits scan_exponent].
    change (default 0 (digit_of c) :: digits (s' +:+ f))
      with (digits (String c (s' +:+ f))).
    now rewrite value_digits, Z.sub_0_l.
  - rewrite scan_digits_run by (exact Hd || reflexivity).
    cbv iota beta. rewrite app_nil_r, append_empty_r.
    cbn [digits scan_exponent length String.length].
    change (default 0 (digit_of c) :: digits s') with (digits (String c s')).
    now rewrite value_digits.
Qed.

(** ** Splitting at one character *)

Lemma split_char_whole (c : ascii) (s : string) :
  all_chars (other_than c) s = true -> split (String c "") s = [s].
Proof.
  unfold split. induction s as [|a s IH]; [reflexivity|].
  cbn [all_chars]. intros H. apply andb_true_iff in H. destruct H as [Ha Hs].
  simpl. destruct (ascii_dec c a) as [->|Hne].
  - unfold other_than in Ha. now rewrite Ascii.eqb_refl in Ha.
  - now rewrite (IH Hs).
Qed.

Lemma split_char_app (c : ascii) (s rest : string) :
  all_chars (other_than c) s = true ->
  split (String c "") (s +:+ String c rest) = s :: split (String c "") rest.
Proof.
  unfold split. induction s as [|a s IH].
  - intros _. simpl. destruct (ascii_dec c c) as [_|Hne]; [|congruence].
    now rewrite prefix_empty.
  - cbn [all_chars]. intros H. apply andb_true_iff in H. destruct H as [Ha Hs].
    simpl. destruct (ascii_dec c a) as [->|Hne].
    + unfold other_than in Ha. now rewrite Ascii.eqb_refl in Ha.
    + now rewrite (IH Hs).
Qed.

Lemma number_no_colon (s : string) :
  all_chars is_digit s = true -> all_chars (other_than ":") s = true.
Proof. apply all_chars_impl. intros c. apply digit_not_colon. Qed.

Lemma seconds_no_colon (ip : string) (fp : option string) :
  is_number ip = true ->
  (forall f, fp = Some f -> all_chars is_digit f = true) ->
  all_chars (other_than ":") (seconds_field ip fp) = true.
Proof.
  intros Hip Hfp. destruct (is_number_inv ip Hip) as (c & s' & -> & _ & Hd).
  unfold seconds_field. rewrite all_chars_app, (number_no_colon _ Hd).
  destruct fp as [f|]; [|reflexivity].
  change ("." +:+ f) with (String "." f). cbn [all_chars andb].
  apply number_no_colon, Hfp. reflexivity.
Qed.

(** ** Integers that floats hold *)

Lemma digits2_iter (m k : positive) :
  digits2_pos (Pos.iter xO m k) = (digits2_pos m + k)%positive.
Proof.
  induction k as [|k IH] using Pos.peano_ind.
  - cbn. lia.
  - rewrite Pos.iter_succ. cbn [digits2_pos]. rewrite IH. lia.
Qed.

Lemma digits2_lower (p : positive) : 2 ^ (Zpos (digits2_pos p) - 1) <= Zpos p.
Proof.
  induction p as [p IH|p IH|]; cbn [digits2_pos].
  - rewrite Pos2Z.inj_succ.
    replace (Z.succ (Zpos (digits2_pos p)) - 1) with (Z.succ (Zpos (digits2_pos p) - 1)) by lia.
    rewrite Z.pow_succ_r by lia. lia.
  - rewrite Pos2Z.inj_succ.
    replace (Z.succ (Zpos (digits2_pos p)) - 1) with (Z.succ (Zpos (digits2_pos p) - 1)) by lia.
    rewrite Z.pow_succ_r by lia. lia.
  - cbn. lia.
Qed.

Lemma digits2_bound (p : positive) (n : Z) :
  0 <= n -> Zpos p < 2 ^ n -> Zpos (digits2_pos p) <= n.
Proof.
  intros Hn H. pose proof (digits2_lower p) as L.
  assert (Hlt : 2 ^ (Zpos (digits2_pos p) - 1) < 2 ^ n) by lia.
  apply Z.pow_lt_mono_r_iff in Hlt; lia.
Qed.

(** A mantissa of 53 bits with an exponent in range is kept as it is. *)
Lemma binary_round_aux_exact (sx : bool) (mz : positive) (ez : Z) :
  Zpos (digits2_pos mz) = 53 -> -1074 <= ez <= 971 ->
  binary_round_aux prec emax sx (Zpos mz) ez loc_Exact = S754_finite sx mz ez.
Proof.
  intros Hd He. unfold binary_round_aux, shr_fexp, fexp, emin, prec, emax.
  cbn [Zdigits2 shr_record_of_loc]. rewrite Hd.
  replace (Z.max (53 + ez - 53) (3 - 1024 - 53) - ez) with 0 by lia.
  cbn [shr shr_m loc_of_shr_record round_nearest_even Zdigits2 shr_record_of_loc].
  rewrite Hd.
  replace (Z.max (53 + ez - 53) (3 - 1024 - 53) - ez) with 0 by lia.
  cbn [shr shr_m].
  replace (ez <=? 1024 - 53) with true by (symmetry; apply Z.leb_le; lia).
  reflexivity.
Qed.

Lemma Z2F_small (m : positive) :
  Zpos m < 2 ^ 53 -> exists mz ez, Z2F (Zpos m) = S754_finite false mz ez.
Proof.
  intros H. pose proof (digits2_bound m 53 ltac:(lia) H) as Hd.
  assert (0 < Zpos (digits2_pos m)) by lia.
  unfold Z2F, binary_normalize, binary_round, shl_align, fexp, emin, prec, emax.
  rewrite Z.add_0_r.
  replace (Z.max (Zpos (digits2_pos m) - 53) (3 - 1024 - 53))
    with (Zpos (digits2_pos m) - 53) by lia.
  rewrite Z.sub_0_r.
  destruct (Zpos (digits2_pos m) - 53) as [|k|k] eqn:Hk; try lia.
  - eexists _, _. apply binary_round_aux_exact; lia.
  - eexists _, _. apply binary_round_aux_exact.
    + rewrite digits2_iter. lia.
    + lia.
Qed.

(** No [OverflowError] for an integer below 2^53. *)
Lemma float_of_int_small (z : Z) :
  0 <= z < 2 ^ 53 -> float_of_int z = Ret (Z2F z).
Proof.
  intros [H0 H]. unfold float_of_int.
  destruct z as [|m|m]; [reflexivity| |lia].
  destruct (Z2F_small m H) as (mz & ez & ->). reflexivity.
Qed.

(** ** Sums of integers that floats hold *)

Lemma digits2_upper (p : positive) : Zpos p < 2 ^ Zpos (digits2_pos p).
Proof.
  induction p as [p IH|p IH|]; cbn [digits2_pos].
  - rewrite Pos2Z.inj_succ, Z.pow_succ_r by lia. lia.
  - rewrite Pos2Z.inj_succ, Z.pow_succ_r by lia. lia.
  - cbn. lia.
Qed.

Lemma digits2_unique (p : positive) (d : Z) :
  2 ^ (d - 1) <= Zpos p < 2 ^ d -> 0 < d -> Zpos (digits2_pos p) = d.
Proof.
  intros [Hl Hu] Hd.
  pose proof (digits2_lower p) as L. pose proof (digits2_upper p) as U.
  assert (H1 : 2 ^ (d - 1) < 2 ^ Zpos (digits2_pos p)) by lia.
  assert (H2 : 2 ^ (Zpos (digits2_pos p) - 1) < 2 ^ d) by lia.
  apply Z.pow_lt_mono_r_iff in H1; [|lia|lia].
  apply Z.pow_lt_mono_r_iff in H2; [|lia|lia]. lia.
Qed.

Lemma digits2_shift (z M : positive) (k : Z) :
  0 <= k -> Zpos M = Zpos z * 2 ^ k ->
  Zpos (digits2_pos M) = Zpos (digits2_pos z) + k.
Proof.
  intros Hk HM. apply digits2_unique; [|lia].
  pose proof (digits2_lower z) as L. pose proof (digits2_upper z) as U.
  rewrite HM.
  replace (Zpos (digits2_pos z) + k - 1) with ((Zpos (digits2_pos z) - 1) + k) by lia.
  rewrite !Z.pow_add_r by lia.
  assert (0 < 2 ^ k) by (apply Z.pow_pos_nonneg; lia).
  nia.
Qed.

Lemma iter_xO_Z (p k : positive) : Zpos (Pos.iter xO p k) = Zpos p * 2 ^ Zpos k.
Proof.
  induction k as [|k IH] using Pos.peano_ind.
  - cbn. lia.
  - rewrite Pos.iter_succ, Pos2Z.inj_succ, Z.pow_succ_r by lia.
    rewrite Pos2Z.inj_xO, IH. lia.
Qed.

Lemma shr_exact (n p : positive) :
  SpecFloat.iter_pos shr_1 n (Build_shr_record (Zpos (Pos.iter xO p n)) false false)
  = Build_shr_record (Zpos p) false false.
Proof.
  revert p. induction n as [n IH|n IH|]; intros p; cbn [SpecFloat.iter_pos Pos.iter].
  - cbn [shr_1 orb]. now rewrite !IH.
  - now rewrite !IH.
  - reflexivity.
Qed.

Lemma normalize_canon (M z : positive) (e : Z) :
  -1000 <= e <= 0 ->
  Zpos M = Zpos z * 2 ^ (- e) ->
  Zpos z < 2 ^ 53 ->
  binary_normalize prec emax (Zpos M) e false = canon z.
Proof.
  intros He HM Hz.
  pose proof (digits2_shift z M (- e) ltac:(lia) HM) as HdM.
  assert (Hdz : 0 < Zpos (digits2_pos z) <= 53).
  { split; [lia|]. pose proof (digits2_lower z) as L.
    assert (Hlt : 2 ^ (Zpos (digits2_pos z) - 1) < 2 ^ 53) by lia.
    apply Z.pow_lt_mono_r_iff in Hlt; lia. }
  set (dz := Zpos (digits2_pos z)) in *.
  unfold canon. fold dz.
  unfold binary_normalize, binary_round, shl_align, fexp, emin, prec, emax.
  rewrite HdM.
  replace (Z.max (dz + - e + e - 53) (3 - 1024 - 53)) with (dz - 53) by lia.
  destruct (dz - 53 - e) as [|k|k] eqn:Hk.
  - (* no shift needed: digits M = 53 *)
    rewrite binary_round_aux_exact by lia.
    f_equal; [|lia].
    replace (53 - dz) with (- e) by lia. rewrite <- HM. reflexivity.
  - (* shift right by k *)
    assert (Hn : Zpos k <= - e) by lia.
    set (p := Z.to_pos (Zpos z * 2 ^ (53 - dz))).
    assert (Hp : Zpos p = Zpos z * 2 ^ (53 - dz)).
    { unfold p. rewrite Z2Pos.id; [reflexivity|].
      apply Z.mul_pos_pos; [lia|apply Z.pow_pos_nonneg; lia]. }
    assert (HMp : M = Pos.iter xO p k).
    { apply Pos2Z.inj. rewrite iter_xO_Z, Hp, HM, <- Z.mul_assoc, <- Z.pow_add_r by lia.
      f_equal. f_equal. lia. }
    assert (Hdp : Zpos (digits2_pos p) = 53).
    { rewrite (digits2_shift z p (53 - dz)); [fold dz; lia|lia|exact Hp]. }
    unfold binary_round_aux, shr_fexp, fexp, emin.
    cbn [Zdigits2 shr_record_of_loc]. rewrite HdM.
    replace (Z.max (dz + - e + e - 53) (3 - 1024 - 53) - e) with (Zpos k) by lia.
    cbn [shr]. rewrite HMp, shr_exact.
    cbn [shr_m loc_of_shr_record round_nearest_even Zdigits2 shr_record_of_loc].
    rewrite Hdp.
    replace (Z.max (53 + (e + Zpos k) - 53) (3 - 1024 - 53) - (e + Zpos k)) with 0 by lia.
    cbn [shr shr_m].
    replace (e + Zpos k <=? 1024 - 53) with true by (symmetry; apply Z.leb_le; lia).
    f_equal. lia.
  - (* shift left by k *)
    assert (Hd : Zpos (digits2_pos (Pos.iter xO M k)) = 53).
    { rewrite (digits2_shift M (Pos.iter xO M k) (Zpos k)); [lia|lia|apply iter_xO_Z]. }
    rewrite binary_round_aux_exact by lia.
    f_equal. apply Pos2Z.inj. rewrite iter_xO_Z, HM.
    rewrite Z2Pos.id by (apply Z.mul_pos_pos; [lia|apply Z.pow_pos_nonneg; lia]).
    rewrite <- Z.mul_assoc, <- Z.pow_add_r by lia. f_equal. f_equal. lia.
Qed.

Lemma Z2F_canon (z : positive) : Zpos z < 2 ^ 53 -> Z2F (Zpos z) = canon z.
Proof.
  intros H. unfold Z2F. apply normalize_canon; [lia| |exact H].
  cbn. lia.
Qed.

Lemma shl_align_fst (m : positive) (e e' : Z) :
  e' <= e -> Zpos (fst (shl_align m e e')) = Zpos m * 2 ^ (e - e').
Proof.
  intros H. unfold shl_align.
  destruct (e' - e) as [|k|k] eqn:Hk; cbn [fst].
  - replace (e - e') with 0 by lia. cbn. lia.
  - lia.
  - rewrite iter_xO_Z. f_equal. f_equal. lia.
Qed.

Lemma canon_mantissa (z : positive) :
  Zpos z < 2 ^ 53 ->
  exists m, canon z = S754_finite false m (Zpos (digits2_pos z) - 53)
            /\ Zpos m = Zpos z * 2 ^ (53 - Zpos (digits2_pos z))
            /\ 0 < Zpos (digits2_pos z) <= 53.
Proof.
  intros Hz.
  assert (Hdz : 0 < Zpos (digits2_pos z) <= 53).
  { split; [lia|]. pose proof (digits2_lower z) as L.
    assert (Hlt : 2 ^ (Zpos (digits2_pos z) - 1) < 2 ^ 53) by lia.
    apply Z.pow_lt_mono_r_iff in Hlt; lia. }
  eexists. split; [reflexivity|]. split; [|exact Hdz].
  rewrite Z2Pos.id; [reflexivity|].
  apply Z.mul_pos_pos; [lia|apply Z.pow_pos_nonneg; lia].
Qed.

Lemma fadd_canon (a b : positive) :
  Zpos a + Zpos b < 2 ^ 53 -> fadd (canon a) (canon b) = canon (a + b).
Proof.
  intros H.
  destruct (canon_mantissa a ltac:(lia)) as (ma & -> & Hma & Hda).
  destruct (canon_mantissa b ltac:(lia)) as (mb & -> & Hmb & Hdb).
  set (da := Zpos (digits2_pos a)) in *. set (db := Zpos (digits2_pos b)) in *.
  unfold fadd, SFadd. cbn [cond_Zopp].
  set (ez := Z.min (da - 53) (db - 53)).
  assert (Hez : -52 <= ez <= 0) by lia.
  pose proof (shl_align_fst ma (da - 53) ez ltac:(lia)) as Ha.
  pose proof (shl_align_fst mb (db - 53) ez ltac:(lia)) as Hb.
  change (Zpos (fst (shl_align ma (da - 53) ez)) + Zpos (fst (shl_align mb (db - 53) ez)))
    with (Zpos (fst (shl_align ma (da - 53) ez) + fst (shl_align mb (db - 53) ez))).
  apply normalize_canon; [lia| |lia].
  rewrite Pos2Z.inj_add, Ha, Hb, Hma, Hmb.
  rewrite <- !Z.mul_assoc, <- !Z.pow_add_r by lia.
  replace (53 - da + (da - 53 - ez)) with (- ez) by lia.
  replace (53 - db + (db - 53 - ez)) with (- ez) by lia.
  lia.
Qed.

Lemma fadd_Z2F (a b : Z) :
  0 <= a -> 0 <= b -> a + b < 2 ^ 53 -> fadd (Z2F a) (Z2F b) = Z2F (a + b).
Proof.
  intros Ha Hb H.
  destruct a as [|a|a]; [|destruct b as [|b|b]|]; try lia.
  - destruct b as [|b|b]; try lia; [reflexivity|].
    change (0 + Zpos b) with (Zpos b). rewrite Z2F_canon by lia.
    destruct (canon_mantissa b ltac:(lia)) as (mb & Hc & _). now rewrite Hc.
  - rewrite Z.add_0_r, Z2F_canon by lia.
    destruct (canon_mantissa a ltac:(lia)) as (ma & Hc & _). now rewrite Hc.
  - change (Zpos a + Zpos b) with (Zpos (a + b)).
    rewrite !Z2F_canon by lia. now apply fadd_canon.
Qed.

Lemma F2Q_Z2F (z : Z) :
  0 <= z < 2 ^ 53 -> exists q, F2Q (Z2F z) = Some q /\ Qeq q (inject_Z z).
Proof.
  intros [H0 H]. destruct z as [|z|z]; [| |lia].
  - eexists. split; [reflexivity|reflexivity].
  - rewrite Z2F_canon by lia.
    destruct (canon_mantissa z ltac:(lia)) as (m & -> & Hm & Hd).
    eexists. split; [reflexivity|].
    destruct (Zpos (digits2_pos z) - 53) as [|p|p] eqn:Hp; [|lia|].
    + replace (53 - Zpos (digits2_pos z)) with 0 in Hm by lia.
      unfold Qeq. cbn. lia.
    + replace (53 - Zpos (digits2_pos z)) with (Zpos p) in Hm by lia.
      unfold Qeq. cbn [Qnum Qden inject_Z]. rewrite Pos2Z.inj_pow. lia.
Qed.

Lemma decimal_from_nonneg (s : string) (acc : Z) : 0 <= acc -> 0 <= decimal_from acc s.
Proof.
  revert acc. induction s as [|c s IH]; intros acc H; cbn [decimal_from]; [exact H|].
  apply IH. unfold digit_of.
  destruct (_ && _)%bool; simpl; lia.
Qed.

Lemma decimal_nonneg (s : string) : 0 <= decimal s.
Proof. apply decimal_from_nonneg. lia. Qed.

(** ** C5: the time token to seconds *)

Lemma seconds_whole (ip : string) : seconds_value ip None = Z2F (decimal ip).
Proof.
  unfold seconds_value, dec2F. cbn [default String.length Z.of_nat Z.opp].
  rewrite append_empty_r.
  pose proof (decimal_nonneg ip) as H.
  destruct (decimal ip) as [|n|n]; [reflexivity| |lia].
  cbn [Z.leb Z.compare]. now rewrite Z.pow_0_r, Z.mul_1_r.
Qed.

(** C5 (as stated, refuted). [2501999792983:00:00.5] is a well-formed
    token: its three fields are read as 2501999792983, 0 and one half.
    The elapsed time computed for it is the float 9007199254738800.0,
    which is not [hours * 3600 + minutes * 60 + seconds]: the half
    second is lost in the rounding of the sum. *)
Lemma C5_half_second_lost :
  let hh := "2501999792983" in
  split ":" "2501999792983:00:00.5" = [hh; "00"; "00.5"]
  /\ int hh = Ret 2501999792983
  /\ int "00" = Ret 0
  /\ (exists s q, float_of_str "00.5" = Ret s /\ F2Q s = Some q
                   /\ Qeq q (Qmake 1 2))
  /\ exists f q,
       current_time hh "00" "00.5" = Ret f
       /\ F2Q f = Some q
       /\ Qeq q (inject_Z 9007199254738800)
       /\ ~ Qeq q (Qplus (inject_Z (2501999792983 * 3600 + 0 * 60)) (Qmake 1 2)).
Proof.
  cbv zeta. split; [reflexivity|]. split; [reflexivity|]. split; [reflexivity|].
  split.
  - eexists _, _. split; [vm_compute; reflexivity|].
    split; vm_compute; reflexivity.
  - eexists _, _. split; [vm_compute; reflexivity|].
    split; [vm_compute; reflexivity|]. split; vm_compute; congruence.
Qed.

(** C5 (amended). A token [HH:MM:SS] or [HH:MM:SS.fraction] whose fields
    are strings of decimal digits, the hours and the minutes of at most
    4300 digits, splits into exactly these three fields.  The elapsed
    time is computed as the float of the integer
    [hours * 3600 + minutes * 60], which is exact integer arithmetic,
    plus the float nearest to the seconds field, in binary64; below
    2^53 the integer converts without [OverflowError].  When the seconds
    field has no fraction and the total is below 2^53, the result is
    exactly [hours * 3600 + minutes * 60 + seconds]. *)
Theorem C5_elapsed_seconds (hh mm ip : string) (fp : option string) :
  is_number hh = true ->
  is_number mm = true ->
  is_number ip = true ->
  (forall f, fp = Some f -> all_chars is_digit f = true) ->
  (String.length hh <= int_max_str_digits)%nat ->
  (String.length mm <= int_max_str_digits)%nat ->
  let ss := seconds_field ip fp in
  let whole := decimal hh * 3600 + decimal mm * 60 in
  split ":" (hh +:+ ":" +:+ mm +:+ ":" +:+ ss) = [hh; mm; ss]
  /\ current_time hh mm ss
     = (i ← float_of_int whole; Ret (fadd i (seconds_value ip fp)))
  /\ (whole < 2 ^ 53 ->
      current_time hh mm ss = Ret (fadd (Z2F whole) (seconds_value ip fp)))
  /\ (fp = None -> whole + decimal ip < 2 ^ 53 ->
      exists f q,
        current_time hh mm ss = Ret f
        /\ F2Q f = Some q
        /\ Qeq q (inject_Z (decimal hh * 3600 + decimal mm * 60 + decimal ip))).
Proof.
  intros Hh Hm Hip Hfp Lh Lm ss whole.
  pose proof (decimal_nonneg hh) as Nh. pose proof (decimal_nonneg mm) as Nm.
  pose proof (decimal_nonneg ip) as Ni.
  assert (Ht : current_time hh mm ss
               = (i ← float_of_int whole; Ret (fadd i (seconds_value ip fp)))).
  { unfold current_time.
    rewrite (int_number hh Hh Lh), (int_number mm Hm Lm).
    subst ss. rewrite (float_seconds ip fp Hip Hfp). reflexivity. }
  assert (Hsmall : whole < 2 ^ 53 ->
                   current_time hh mm ss = Ret (fadd (Z2F whole) (seconds_value ip fp))).
  { intros Hw. rewrite Ht, float_of_int_small; [reflexivity|]. subst whole. lia. }
  split; [|split; [exact Ht|split; [exact Hsmall|]]].
  - destruct (is_number_inv hh Hh) as (c1 & s1 & E1 & _ & Hd1).
    destruct (is_number_inv mm Hm) as (c2 & s2 & E2 & _ & Hd2).
    change (":" +:+ mm +:+ ":" +:+ ss) with (String ":" (mm +:+ String ":" ss)).
    rewrite split_char_app by now apply number_no_colon.
    rewrite split_char_app by now apply number_no_colon.
    rewrite split_char_whole by now apply seconds_no_colon.
    reflexivity.
  - intros -> Htot. fold whole.
    destruct (F2Q_Z2F (whole + decimal ip)) as (q & Hq & Heq); [subst whole; lia|].
    exists (Z2F (whole + decimal ip)), q. split; [|split; assumption].
    rewrite Hsmall by lia. rewrite seconds_whole.
    f_equal. apply fadd_Z2F; subst whole; lia.
Qed.

Lemma C5_elapsed_seconds_witness :
  split ":" "01:02:03.50" = ["01"; "02"; "03.50"]
  /\ (exists f q, current_time "01" "02" "03.50" = Ret f
                  /\ float_of_str "3723.5" = Ret f
                  /\ F2Q f = Some q /\ Qeq q (Qmake 7447 2))
  /\ exists f q, current_time "01" "02" "03" = Ret f
                 /\ F2Q f = Some q /\ Qeq q (inject_Z 3723).
Proof.
  destruct (C5_elapsed_seconds "01" "02" "03" (Some "50")) as (Hs & _ & Ht & _);
    try reflexivity.
  { intros f Hf. injection Hf as <-. reflexivity. }
  { cbv. lia. }
  { cbv. lia. }
  destruct (C5_elapsed_seconds "01" "02" "03" None) as (_ & _ & _ & Hw);
    try reflexivity.
  { discriminate. }
  { cbv. lia. }
  { cbv. lia. }
  split; [exact Hs|]. split.
  - eexists _, _. split; [etransitivity; [apply Ht; reflexivity|reflexivity]|].
    split; [vm_compute; reflexivity|]. split; vm_compute; reflexivity.
  - apply Hw; reflexivity.
Defined.

(** ** Finding the marker in a line *)

Lemma append_assoc (a b c : string) : (a +:+ b) +:+ c = a +:+ b +:+ c.
Proof.
  induction a as [|x a IH]; [reflexivity|].
  change (String x ((a +:+ b) +:+ c) = String x (a +:+ b +:+ c)). now rewrite IH.
Qed.

Lemma append_length (a b : string) :
  String.length (a +:+ b) = (String.length a + String.length b)%nat.
Proof. induction a as [|x a IH]; simpl; [reflexivity|now rewrite IH]. Qed.

(** Whether [p] is a prefix is decided by the first [length p] characters. *)
Lemma prefix_app (p u v : string) :
  (String.length p <= String.length u)%nat ->
  String.prefix p (u +:+ v) = String.prefix p u.
Proof.
  revert u. induction p as [|a p IH]; intros u H.
  - now rewrite !prefix_empty.
  - destruct u as [|b u]; [simpl in H; lia|].
    simpl. destruct (ascii_dec a b); [|reflexivity].
    apply IH. simpl in H. lia.
Qed.

Lemma contains_inv (sep : string) (c : ascii) (s : string) :
  contains sep (String c s) = false ->
  String.prefix sep (String c s) = false /\ contains sep s = false.
Proof. cbn [contains]. intros H. now apply orb_false_iff in H. Qed.

(** A string without the separator is one piece. *)
Lemma split_whole (sep s : string) :
  contains sep s = false -> split_go sep s 0 = [s].
Proof.
  induction s as [|c s IH]; [reflexivity|].
  intros H. apply contains_inv in H. destruct H as [Hp Hs].
  cbn [split_go]. rewrite Hp, (IH Hs). reflexivity.
Qed.

(** The rest of an occurrence is skipped. *)
Lemma split_skip (sep u s : string) :
  split_go sep (u +:+ s) (String.length u) = split_go sep s 0.
Proof.
  induction u as [|c u IH]; [now destruct s|].
  simpl. exact IH.
Qed.

(** The first occurrence of the marker ends the first piece. *)
Lemma split_first_marker (pre rest : string) :
  contains "time=" (pre +:+ "time") = false ->
  split "time=" (pre +:+ "time=" +:+ rest) = pre :: split_go "time=" rest 0.
Proof.
  unfold split. induction pre as [|a pre IH]; intros H.
  - change ("" +:+ "time=" +:+ rest) with (String "t" ("ime=" +:+ rest)).
    cbn [split_go]. change (String "t" ("ime=" +:+ rest)) with ("time=" +:+ rest).
    rewrite (prefix_app "time=" "time=" rest) by (simpl; lia).
    change (String.prefix "time=" "time=") with true. cbv iota.
    apply f_equal. apply (split_skip "time=" "ime=" rest).
  - change (String a pre +:+ ?x) with (String a (pre +:+ x)) in *.
    apply contains_inv in H. destruct H as [Hp Hs].
    cbn [split_go].
    change (String a (pre +:+ "time=" +:+ rest))
      with (String a pre +:+ "time=" +:+ rest).
    replace (String a pre +:+ "time=" +:+ rest)
      with ((String a pre +:+ "time") +:+ ("=" +:+ rest))
      by now rewrite append_assoc.
    rewrite prefix_app by (rewrite append_length; simpl; lia).
    change (String a pre +:+ "time") with (String a (pre +:+ "time")).
    rewrite Hp, (IH Hs). reflexivity.
Qed.

Lemma contains_marker (pre rest : string) :
  contains "time=" (pre +:+ "time=" +:+ rest) = true.
Proof.
  induction pre as [|a pre IH].
  - change ("" +:+ "time=" +:+ rest) with ("time=" +:+ rest).
    change ("time=" +:+ rest) with (String "t" ("ime=" +:+ rest)) at 1.
    cbn [contains]. change (String "t" ("ime=" +:+ rest)) with ("time=" +:+ rest).
    rewrite (prefix_app "time=" "time=" rest) by (simpl; lia). reflexivity.
  - change (String a pre +:+ ?x) with (String a (pre +:+ x)).
    cbn [contains]. rewrite IH. apply orb_true_r.
Qed.

(** The first word of a string that begins with one. *)
Lemma split_ws_word (token rest : string) :
  token <> "" ->
  all_chars (fun c => negb (is_space c)) token = true ->
  starts_word rest = false ->
  split_ws (token +:+ rest) = token :: split_ws rest.
Proof.
  intros Hne Hns Hrest. induction token as [|c t IH]; [congruence|].
  cbn [all_chars] in Hns. apply andb_true_iff in Hns. destruct Hns as [Hc Ht].
  apply negb_true_iff in Hc.
  change (String c t +:+ rest) with (String c (t +:+ rest)).
  cbn [split_ws]. rewrite Hc.
  destruct t as [|c' t'].
  - change ("" +:+ rest) with rest. now rewrite Hrest.
  - assert (Hw : starts_word (String c' t' +:+ rest) = true).
    { simpl. cbn [all_chars] in Ht. now apply andb_true_iff in Ht. }
    rewrite Hw, IH by (congruence || exact Ht). reflexivity.
Qed.

(** ** What the monitoring loop does with one line *)

Lemma monitor_line_unknown_duration (line : string) (w : world) :
  monitor_line None line w = (Ret tt, w).
Proof. reflexivity. Qed.

Lemma monitor_line_zero_duration (d : float) (line : string) (w : world) :
  truthy d = false -> monitor_line (Some d) line w = (Ret tt, w).
Proof. intros H. unfold monitor_line. now rewrite H. Qed.

Lemma monitor_line_no_marker (duration : option float) (line : string) (w : world) :
  contains "time=" line = false -> monitor_line duration line w = (Ret tt, w).
Proof.
  intros H. unfold monitor_line. destruct duration as [d|]; [|reflexivity].
  now rewrite H, andb_false_r.
Qed.

Section Marker.
Variables (d : float) (pre token rest : string) (w : world).
Hypothesis Hd : truthy d = true.
Hypothesis Hpre : contains "time=" (pre +:+ "time") = false.

(** Nothing but whitespace after the marker: the [IndexError] leaves the
    loop. *)
Lemma monitor_line_empty_marker :
  contains "time=" rest = false ->
  split_ws rest = [] ->
  monitor_line (Some d) (pre +:+ "time=" +:+ rest) w = (Raise IndexError, w).
Proof.
  intros Hone Hws. unfold monitor_line. rewrite Hd, contains_marker. cbn [andb].
  rewrite split_first_marker by exact Hpre.
  rewrite split_whole by exact Hone.
  erewrite bind_ret by apply lift_run. cbn [item nth_error].
  rewrite Hws. reflexivity.
Qed.

Hypothesis Hone : contains "time=" (token +:+ rest) = false.
Hypothesis Hne : token <> "".
Hypothesis Hns : all_chars (fun c => negb (is_space c)) token = true.
Hypothesis Hrest : starts_word rest = false.

(** The token after the marker is what the inner [try] works on. *)
Lemma monitor_line_token :
  monitor_line (Some d) (pre +:+ "time=" +:+ token +:+ rest) w
  = match progress_of d token with
    | Ret (Some progress) => emit (PrintProgress progress) w
    | Ret None => (Ret tt, w)
    | Raise ValueError | Raise IndexError => (Ret tt, w)
    | Raise e => (Raise e, w)
    end.
Proof.
  unfold monitor_line. rewrite Hd, contains_marker. cbn [andb].
  rewrite split_first_marker by exact Hpre.
  rewrite split_whole by exact Hone.
  erewrite bind_ret by apply lift_run. cbn [item nth_error].
  rewrite split_ws_word by assumption.
  erewrite bind_ret by apply lift_run. cbn [item nth_error].
  destruct (progress_of d token) as [[p|]|[]]; reflexivity.
Qed.

(** A token that does not have three fields is passed over. *)
Lemma monitor_line_wrong_fields :
  length (split ":" token) <> 3%nat ->
  monitor_line (Some d) (pre +:+ "time=" +:+ token +:+ rest) w = (Ret tt, w).
Proof.
  intros Hlen. rewrite monitor_line_token. unfold progress_of.
  destruct (split ":" token) as [|a [|b [|c [|x l]]]]; try reflexivity.
  now cbn in Hlen.
Qed.

(** A field that is not a number is passed over. *)
Lemma monitor_line_not_numeric (hh mm ss : string) :
  split ":" token = [hh; mm; ss] ->
  current_time hh mm ss = Raise ValueError ->
  monitor_line (Some d) (pre +:+ "time=" +:+ token +:+ rest) w = (Ret tt, w).
Proof.
  intros Hsplit Ht. rewrite monitor_line_token. unfold progress_of.
  now rewrite Hsplit, Ht.
Qed.

End Marker.

(** ** C2: a progress line the parser cannot read *)

(** C2 (the code at the failing input). The encoder writes one line that
    ends right after [time=] and then exits with status 0.  The
    [IndexError] of [line.split('time=')[1].split()[0]] is raised outside
    the inner [try]; the outer handler reports it and [convert_file]
    returns [False] without waiting for the child, although the same
    encoder without that line makes it return [True]. *)
Lemma C2_empty_marker_fails_conversion :
  let bad := convert_file plex (encoder ["size=0kB time=" +:+ nl] (Some movie) (Exits 0))
               (PStr "movie.mkv") None w_fresh in
  let good := convert_file plex (encoder [] (Some movie) (Exits 0))
                (PStr "movie.mkv") None w_fresh in
  bad.1 = Ret false
  /\ last (trace bad.2) = Some (PrintError IndexError)
  /\ ~ In Wait (trace bad.2)
  /\ good.1 = Ret true.
Proof.
  vm_compute. repeat split; try reflexivity.
  intros H. repeat (destruct H as [H|H]; [discriminate|]). exact H.
Qed.

(** ** C1: the percentage that is printed *)

(** C1 (as stated, refuted). With a probed duration of 100.0 seconds and
    a progress line whose time is 00:02:30.00, that is 150.0 seconds,
    the percentage printed is 150.0, which is greater than 100.0. *)
Lemma C1_percent_exceeds_100 :
  let line := "frame= 3750 fps= 25 q=28.0 size=    1024kB time=00:02:30.00 bitrate=  55.9kbits/s" in
  let run := convert_file plex (encoder [line] (Some movie) (Exits 0))
               (PStr "movie.mkv") None w_fresh in
  float_of_str "100.0" = Ret (Z2F 100)
  /\ current_time "00" "02" "30.00" = Ret (Z2F 150)
  /\ monitor_line (Some (Z2F 100)) line w_fresh
     = (Ret tt, add_events w_fresh [PrintProgress (Z2F 150)])
  /\ In (PrintProgress (Z2F 150)) (trace run.2)
  /\ SFcompare (Z2F 150) (Z2F 100) = Some Gt.
Proof.
  vm_compute. repeat split; try reflexivity.
  do 5 right. left. reflexivity.
Qed.

(** C1 (amended). For a line whose first [time=] marker is followed by a
    token that stands alone as a word, has three colon-separated fields
    and denotes the elapsed time [t], and a probed duration [d] that is
    known and not zero, the percentage printed is [t / d * 100] as
    floats compute it, without any clamping. *)
Theorem C1_percent_is_ratio (d t : float) (pre token rest hh mm ss : string) (w : world) :
  truthy d = true ->
  contains "time=" (pre +:+ "time") = false ->
  contains "time=" (token +:+ rest) = false ->
  token <> "" ->
  all_chars (fun c => negb (is_space c)) token = true ->
  starts_word rest = false ->
  split ":" token = [hh; mm; ss] ->
  current_time hh mm ss = Ret t ->
  monitor_line (Some d) (pre +:+ "time=" +:+ token +:+ rest) w
  = (Ret tt, add_events w [PrintProgress (fmul (fdiv t d) (Z2F 100))]).
Proof.
  intros Hd Hpre Hone Hne Hns Hrest Hsplit Ht.
  rewrite monitor_line_token by assumption.
  unfold progress_of. rewrite Hsplit, Ht.
  cbn [mbind result_bind rbind]. unfold truediv. rewrite Hd.
  cbn [mbind result_bind rbind]. apply emit_run.
Qed.

Lemma C1_percent_is_ratio_witness :
  monitor_line (Some (Z2F 100))
    "frame= 3750 fps= 25 q=28.0 size=    1024kB time=00:02:30.00 bitrate=  55.9kbits/s" w_fresh
  = (Ret tt, add_events w_fresh [PrintProgress (Z2F 150)]).
Proof.
  etransitivity.
  - apply (C1_percent_is_ratio (Z2F 100) (Z2F 150)
             "frame= 3750 fps= 25 q=28.0 size=    1024kB " "00:02:30.00"
             " bitrate=  55.9kbits/s" "00" "02" "30.00" w_fresh);
      try reflexivity.
    discriminate.
  - reflexivity.
Defined.

(** ** When a conversion returns *)

Lemma float_of_str_raises (s : string) (e : exn) :
  float_of_str s = Raise e -> e = ValueError.
Proof.
  unfold float_of_str.
  destruct (scan_sign (strip s)) as [neg s1].
  destruct (_ || _); [discriminate|].
  destruct (String.eqb _ _); [discriminate|].
  destruct (scan_digits s1) as [ip r1].
  destruct (match r1 with String "."%char r => scan_digits r | _ => ([], r1) end) as [fp r2].
  destruct (ip ++ fp); [congruence|].
  destruct (scan_exponent r2); [discriminate|congruence].
Qed.

Section Uninterrupted.
Variables (self : PlexConverter) (E : env).
Hypothesis Hprobe : forall cmd, ffprobe E cmd <> ProbeInterrupted.






End Uninterrupted.

(** * Further properties of the converter *)

(** ** The world through the steps of a conversion *)

Lemma add_events_nil (w : world) : add_events w [] = w.
Proof. destruct w. unfold add_events. cbn. now rewrite app_nil_r. Qed.

Lemma monitor_line_any (duration : option float) (line : string) (w : world) :
  monitor_line duration line w
  = ((monitor_line duration line nowhere).1,
     add_events w (trace (monitor_line duration line nowhere).2)).
Proof.
  unfold monitor_line.
  destruct duration as [d|]; [|cbn; now rewrite add_events_nil].
  destruct (truthy d && contains "time=" line); [|cbn; now rewrite add_events_nil].
  unfold mbind, M_bind, lift.
  destruct (item (split "time=" line) 1) as [a|e]; [|cbn; now rewrite add_events_nil].
  destruct (item (split_ws a) 0) as [tok|e]; [|cbn; now rewrite add_events_nil].
  destruct (progress_of d tok) as [[p|]|[]]; cbn; try now rewrite add_events_nil.
  reflexivity.
Qed.

Lemma monitor_any (duration : option float) (lines : list string) (w : world) :
  monitor duration lines w
  = (monitor_outcome duration lines, add_events w (monitor_events duration lines)).
Proof.
  unfold monitor_outcome, monitor_events. revert w.
  induction lines as [|line rest IH]; intros w.
  - cbn. now rewrite add_events_nil.
  - cbn [monitor]. unfold mbind, M_bind.
    rewrite (monitor_line_any duration line w).
    destruct (monitor_line duration line nowhere) as [[[]|e] w1]; cbn [fst snd]; cbv beta.
    + rewrite (IH (add_events w (trace w1))), (IH w1).
      destruct (monitor duration rest nowhere) as [r w2]. cbn [fst snd].
      f_equal. rewrite !add_events_app. cbn. reflexivity.
    + reflexivity.
Qed.

Lemma get_duration_any (E : env) (p : Path) (w : world) :
  get_duration E p w = (probe_outcome E p, add_events w [Run (probe_cmd p)]).
Proof.
  unfold probe_outcome, get_duration. fold (probe_cmd p).
  rewrite !(bind_ret _ _ _ _ _ (emit_run _ _)).
  destruct (ffprobe E (probe_cmd p)) as [out| | |]; try reflexivity.
  destruct (float_of_str (strip out)) as [f|[]]; reflexivity.
Qed.

Lemma popen_run (E : env) (cmd : list string) (out : Path) (w : world) :
  popen E cmd out w
  = match ffmpeg E cmd with
    | SpawnFails => (Raise OSError, add_events w [Popen cmd])
    | Spawns c => (Ret c, mkWorld (after_child out c (fs w)) (stdin w)
                                  (trace w ++ [Popen cmd]))
    end.
Proof.
  unfold popen. erewrite bind_ret by apply emit_run.
  destruct (ffmpeg E cmd) as [|c]; reflexivity.
Qed.

(** The [try] block when the prober and [Popen] go through. *)
Lemma try_block_spawned (E : env) (cmd : list string) (p out : Path) (w : world)
  (duration : option float) (c : process) :
  probe_outcome E p = Ret duration ->
  ffmpeg E cmd = Spawns c ->
  try_block E cmd p out w
  = let '(r, w3) := supervise duration c
                      (mkWorld (after_child out c (fs w)) (stdin w)
                               (trace w ++ [Run (probe_cmd p); Popen cmd])) in
    (r, true, w3).
Proof.
  intros Hp Hc. unfold try_block.
  rewrite get_duration_any, Hp, popen_run, Hc.
  cbn [add_events fs stdin trace]. now rewrite <- app_assoc.
Qed.

Lemma convert_file_starts (self : PlexConverter) (E : env)
  (input_file : pathlike) (output_file : option pathlike) (out : Path) (w w0 : world) :
  is_Some (fs w !! to_str (Path_ input_file)) ->
  resolve_output (Path_ input_file) output_file = Ret out ->
  starts out w w0 ->
  convert_file self E input_file output_file w
  = try_except E (build_cmd self (Path_ input_file) out) (Path_ input_file) out
      (announced self (Path_ input_file) out w0)
    /\ fs w0 = fs w.
Proof.
  intros Hin Hout [[Hfree ->]|(Hthere & ans & rest & Hstdin & Hans & ->)].
  - split; [|reflexivity]. rewrite <- convert_run. now apply convert_file_fresh.
  - split; [|reflexivity]. rewrite <- convert_run.
    now apply (convert_file_overwrite _ _ _ _ _ _ Hin Hout ans rest).
Qed.

Lemma supervise_any (duration : option float) (c : process) (w : world) :
  supervise duration c w
  = match monitor_outcome duration (stderr c), finish c with
    | Raise e, _ => (Raise e, add_events w (monitor_events duration (stderr c)))
    | Ret _, Interrupted =>
        (Raise KeyboardInterrupt, add_events w (monitor_events duration (stderr c)))
    | Ret _, Exits rc =>
        (Ret (rc =? 0),
         add_events w (monitor_events duration (stderr c) ++ [Wait; verdict rc]))
    end.
Proof.
  destruct (monitor_outcome duration (stderr c)) as [[]|e] eqn:Hm.
  - destruct (finish c) as [rc|] eqn:Hf.
    + erewrite supervise_exit; [|rewrite monitor_any, Hm; reflexivity|exact Hf].
      now rewrite add_events_app.
    + unfold supervise. erewrite bind_ret by (rewrite monitor_any, Hm; reflexivity).
      now rewrite Hf.
  - unfold supervise. erewrite bind_raise by (rewrite monitor_any, Hm; reflexivity).
    reflexivity.
Qed.

Lemma probe_outcome_eq (E : env) (p : Path) :
  probe_outcome E p
  = match ffprobe E (probe_cmd p) with
    | ProbeStdout out =>
        match float_of_str (strip out) with
        | Ret f => Ret (Some f)
        | Raise _ => Ret None
        end
    | ProbeNonZero => Ret None
    | ProbeMissing => Raise OSError
    | ProbeInterrupted => Raise KeyboardInterrupt
    end.
Proof.
  unfold probe_outcome, get_duration. fold (probe_cmd p).
  rewrite (bind_ret _ _ _ _ _ (emit_run _ _)).
  destruct (ffprobe E (probe_cmd p)) as [out| | |]; try reflexivity.
  destruct (float_of_str (strip out)) as [f|e] eqn:Hf; [reflexivity|].
  apply float_of_str_raises in Hf. now subst e.
Qed.

Lemma on_exception_run (e : exn) (w : world) :
  on_exception e w = (Ret false, add_events w [PrintError e]).
Proof. reflexivity. Qed.

(** ** A conversion whose child exits *)

Lemma convert_file_exits_run (self : PlexConverter) (E : env)
  (input_file : pathlike) (output_file : option pathlike) (out : Path) (w w0 : world)
  (duration : option float) (c : process) (rc : Z) :
  is_Some (fs w !! to_str (Path_ input_file)) ->
  resolve_output (Path_ input_file) output_file = Ret out ->
  starts out w w0 ->
  probe_outcome E (Path_ input_file) = Ret duration ->
  ffmpeg E (build_cmd self (Path_ input_file) out) = Spawns c ->
  monitor_outcome duration (stderr c) = Ret tt ->
  finish c = Exits rc ->
  convert_file self E input_file output_file w
  = (Ret (rc =? 0),
     mkWorld (after_child out c (fs w)) (stdin w0)
       (trace (announced self (Path_ input_file) out w0)
        ++ [Run (probe_cmd (Path_ input_file));
            Popen (build_cmd self (Path_ input_file) out)]
        ++ monitor_events duration (stderr c)
        ++ [Wait; verdict rc])).
Proof.
  intros Hin Hout Hst Hp Hc Hm Hf.
  destruct (convert_file_starts self E _ _ _ _ _ Hin Hout Hst) as [-> Hfs].
  unfold try_except. rewrite (try_block_spawned _ _ _ _ _ duration c Hp Hc).
  rewrite supervise_any, Hm, Hf. unfold announced. cbn [add_events fs stdin trace].
  rewrite Hfs. unfold add_events. cbn [fs stdin trace].
  now rewrite <- !app_assoc.
Qed.

(** X1. A run that gets to its [try] block, whose prober returns, whose
    encoder starts, prints lines the loop gets through and exits with
    status [rc], returns [True] exactly when [rc] is 0.  It calls
    neither [terminate] nor [unlink]: after a failed encode the file
    the child left at the output path is still there. *)
Theorem convert_file_child_exits (self : PlexConverter) (E : env)
  (input_file : pathlike) (output_file : option pathlike) (out : Path) (w w0 : world)
  (duration : option float) (c : process) (rc : Z) :
  is_Some (fs w !! to_str (Path_ input_file)) ->
  resolve_output (Path_ input_file) output_file = Ret out ->
  starts out w w0 ->
  probe_outcome E (Path_ input_file) = Ret duration ->
  ffmpeg E (build_cmd self (Path_ input_file) out) = Spawns c ->
  monitor_outcome duration (stderr c) = Ret tt ->
  finish c = Exits rc ->
  convert_file self E input_file output_file w
  = (Ret (rc =? 0),
     mkWorld (after_child out c (fs w)) (stdin w0)
       (trace (announced self (Path_ input_file) out w0)
        ++ [Run (probe_cmd (Path_ input_file));
            Popen (build_cmd self (Path_ input_file) out)]
        ++ monitor_events duration (stderr c)
        ++ [Wait; verdict rc])).
Proof. apply convert_file_exits_run. Qed.

Lemma convert_file_child_exits_witness :
  exists w',
    convert_file plex (encoder ["frame=1 time=00:00:50.00"] (Some partial_output) (Exits 1))
      (PStr "movie.mkv") None w_fresh = (Ret false, w')
    /\ fs w' !! "movie_plex.mp4" = Some partial_output
    /\ ~ In Terminate (trace w').
Proof.
  eexists. split.
  - apply (convert_file_child_exits plex
             (encoder ["frame=1 time=00:00:50.00"] (Some partial_output) (Exits 1))
             (PStr "movie.mkv") None (of_str "movie_plex.mp4") w_fresh w_fresh
             (Some (Z2F 100))
             (mkProcess ["frame=1 time=00:00:50.00"] (Some partial_output) (Exits 1)) 1).
    + vm_compute. eauto.
    + reflexivity.
    + left. split; reflexivity.
    + reflexivity.
    + reflexivity.
    + reflexivity.
    + reflexivity.
  - split; [reflexivity|].
    vm_compute. intros H. repeat (destruct H as [H|H]; [discriminate|]). exact H.
Defined.

(** ** A conversion that cannot start its child *)

(** X2. When the prober program is missing, the [FileNotFoundError] of
    [get_duration], which that function does not catch, makes
    [convert_file] report an error and return [False] before [Popen]:
    the encoder is never started and the filesystem is as it was. *)
Theorem convert_file_prober_missing (self : PlexConverter) (E : env)
  (input_file : pathlike) (output_file : option pathlike) (out : Path) (w w0 : world) :
  is_Some (fs w !! to_str (Path_ input_file)) ->
  resolve_output (Path_ input_file) output_file = Ret out ->
  starts out w w0 ->
  ffprobe E (probe_cmd (Path_ input_file)) = ProbeMissing ->
  convert_file self E input_file output_file w
  = (Ret false,
     mkWorld (fs w) (stdin w0)
       (trace (announced self (Path_ input_file) out w0)
        ++ [Run (probe_cmd (Path_ input_file)); PrintError OSError])).
Proof.
  intros Hin Hout Hst Hp.
  destruct (convert_file_starts self E _ _ _ _ _ Hin Hout Hst) as [-> Hfs].
  unfold try_except, try_block.
  rewrite get_duration_any, probe_outcome_eq, Hp, on_exception_run.
  unfold announced, add_events. cbn [fs stdin trace].
  rewrite Hfs. now rewrite <- !app_assoc.
Qed.

Lemma convert_file_prober_missing_witness :
  exists w',
    convert_file plex (mkEnv (fun _ => ProbeMissing) (ffmpeg studio) true (scandir studio))
      (PStr "movie.mkv") None w_fresh = (Ret false, w')
    /\ fs w' = fs w_fresh
    /\ last (trace w') = Some (PrintError OSError).
Proof.
  eexists. split.
  - apply (convert_file_prober_missing plex
             (mkEnv (fun _ => ProbeMissing) (ffmpeg studio) true (scandir studio))
             (PStr "movie.mkv") None (of_str "movie_plex.mp4") w_fresh w_fresh).
    + vm_compute. eauto.
    + reflexivity.
    + left. split; reflexivity.
    + reflexivity.
  - split; reflexivity.
Defined.

(** X3. When [Popen] fails, [convert_file] reports the error and returns
    [False]; it neither waits for nor terminates anything, and the
    filesystem is as it was. *)
Theorem convert_file_spawn_fails (self : PlexConverter) (E : env)
  (input_file : pathlike) (output_file : option pathlike) (out : Path) (w w0 : world)
  (duration : option float) :
  is_Some (fs w !! to_str (Path_ input_file)) ->
  resolve_output (Path_ input_file) output_file = Ret out ->
  starts out w w0 ->
  probe_outcome E (Path_ input_file) = Ret duration ->
  ffmpeg E (build_cmd self (Path_ input_file) out) = SpawnFails ->
  convert_file self E input_file output_file w
  = (Ret false,
     mkWorld (fs w) (stdin w0)
       (trace (announced self (Path_ input_file) out w0)
        ++ [Run (probe_cmd (Path_ input_file));
            Popen (build_cmd self (Path_ input_file) out);
            PrintError OSError])).
Proof.
  intros Hin Hout Hst Hp Hc.
  destruct (convert_file_starts self E _ _ _ _ _ Hin Hout Hst) as [-> Hfs].
  unfold try_except, try_block.
  rewrite get_duration_any, Hp, popen_run, Hc.
  rewrite on_exception_run.
  unfold announced, add_events. cbn [fs stdin trace].
  rewrite Hfs. now rewrite <- !app_assoc.
Qed.

Lemma convert_file_spawn_fails_witness :
  exists w',
    convert_file plex (mkEnv (ffprobe studio) (fun _ => SpawnFails) true (scandir studio))
      (PStr "movie.mkv") None w_fresh = (Ret false, w')
    /\ fs w' = fs w_fresh
    /\ last (trace w') = Some (PrintError OSError).
Proof.
  eexists. split.
  - apply (convert_file_spawn_fails plex
             (mkEnv (ffprobe studio) (fun _ => SpawnFails) true (scandir studio))
             (PStr "movie.mkv") None (of_str "movie_plex.mp4") w_fresh w_fresh
             (Some (Z2F 100))).
    + vm_compute. eauto.
    + reflexivity.
    + left. split; reflexivity.
    + reflexivity.
    + reflexivity.
  - split; reflexivity.
Defined.

(** ** A duration that is not known *)

Lemma monitor_unknown (duration : option float) (lines : list string) (w : world) :
  known duration = false -> monitor duration lines w = (Ret tt, w).
Proof.
  intros Hk. induction lines as [|line rest IH]; [reflexivity|].
  cbn [monitor]. erewrite bind_ret; [exact IH|].
  destruct duration as [d|]; [|reflexivity].
  now apply monitor_line_zero_duration.
Qed.

(** X4. When the duration is not known ([get_duration] returned [None]
    or a zero), no line of text that the encoder writes is parsed:
    whatever the text of the lines, nothing is printed for progress and
    none of them raises, so that for a child that exits, the result is
    [True] exactly when the exit status is 0.  The lines are those of
    [stderr] as text; output that does not decode as text is not among
    them. *)
Theorem convert_file_unknown_duration (self : PlexConverter) (E : env)
  (input_file : pathlike) (output_file : option pathlike) (out : Path) (w w0 : world)
  (duration : option float) (c : process) (rc : Z) :
  is_Some (fs w !! to_str (Path_ input_file)) ->
  resolve_output (Path_ input_file) output_file = Ret out ->
  starts out w w0 ->
  probe_outcome E (Path_ input_file) = Ret duration ->
  known duration = false ->
  ffmpeg E (build_cmd self (Path_ input_file) out) = Spawns c ->
  finish c = Exits rc ->
  convert_file self E input_file output_file w
  = (Ret (rc =? 0),
     mkWorld (after_child out c (fs w)) (stdin w0)
       (trace (announced self (Path_ input_file) out w0)
        ++ [Run (probe_cmd (Path_ input_file));
            Popen (build_cmd self (Path_ input_file) out);
            Wait; verdict rc])).
Proof.
  intros Hin Hout Hst Hp Hk Hc Hf.
  assert (Hm : monitor duration (stderr c) nowhere = (Ret tt, nowhere))
    by now apply monitor_unknown.
  rewrite (convert_file_exits_run self E _ _ out w w0 duration c rc); try assumption.
  - unfold monitor_events. rewrite Hm. reflexivity.
  - unfold monitor_outcome. now rewrite Hm.
Qed.

Lemma convert_file_unknown_duration_witness :
  exists w',
    convert_file plex
      (mkEnv (fun _ => ProbeStdout "N/A")
             (fun _ => Spawns (mkProcess ["size=0kB time=" +:+ nl] (Some movie) (Exits 0)))
             true (scandir studio))
      (PStr "movie.mkv") None w_fresh = (Ret true, w')
    /\ fs w' !! "movie_plex.mp4" = Some movie.
Proof.
  eexists. split.
  - apply (convert_file_unknown_duration plex
             (mkEnv (fun _ => ProbeStdout "N/A")
                    (fun _ => Spawns (mkProcess ["size=0kB time=" +:+ nl] (Some movie) (Exits 0)))
                    true (scandir studio))
             (PStr "movie.mkv") None (of_str "movie_plex.mp4") w_fresh w_fresh None
             (mkProcess ["size=0kB time=" +:+ nl] (Some movie) (Exits 0)) 0).
    + vm_compute. eauto.
    + reflexivity.
    + left. split; reflexivity.
    + reflexivity.
    + reflexivity.
    + reflexivity.
    + reflexivity.
  - reflexivity.
Defined.

(** ** What a conversion leaves alone *)

Lemma try_except_frame (E : env) (cmd : list string) (p out : Path) (w w' : world)
  (r : result bool) (k : string) :
  try_except E cmd p out w = (r, w') ->
  k <> to_str out ->
  fs w' !! k = fs w !! k.
Proof.
  intros H Hk. unfold try_except, try_block in H.
  rewrite get_duration_any in H.
  assert (Hchild : forall c, after_child out c (fs w) !! k = fs w !! k).
  { intros c. unfold after_child. destruct (written c); [|reflexivity].
    now rewrite lookup_insert_ne by congruence. }
  destruct (probe_outcome E p) as [duration|e].
  - rewrite popen_run in H. destruct (ffmpeg E cmd) as [|c].
    + rewrite on_exception_run in H. now injection H as _ <-.
    + rewrite supervise_any in H.
      destruct (monitor_outcome duration (stderr c)) as [[]|e].
      * destruct (finish c) as [rc|].
        -- injection H as _ <-. apply Hchild.
        -- rewrite on_interrupt_bound in H. injection H as _ <-. cbn.
           rewrite lookup_delete_ne by congruence. apply Hchild.
      * destruct e; try (rewrite on_exception_run in H; injection H as _ <-; apply Hchild).
        rewrite on_interrupt_bound in H. injection H as _ <-. cbn.
        rewrite lookup_delete_ne by congruence. apply Hchild.
  - destruct e; try (rewrite on_exception_run in H; now injection H as _ <-).
    rewrite on_interrupt_unbound in H. now injection H as _ <-.
Qed.

Lemma convert_file_frame (self : PlexConverter) (E : env)
  (input_file : pathlike) (output_file : option pathlike) (w w' : world)
  (r : result bool) (k : string) :
  convert_file self E input_file output_file w = (r, w') ->
  (forall out, resolve_output (Path_ input_file) output_file = Ret out -> k <> to_str out) ->
  fs w' !! k = fs w !! k.
Proof.
  intros H Hk.
  destruct (fs w !! to_str (Path_ input_file)) as [d|] eqn:Hin.
  - destruct (resolve_output (Path_ input_file) output_file) as [out|e] eqn:Hout.
    + assert (Hin' : is_Some (fs w !! to_str (Path_ input_file))) by eauto.
      specialize (Hk out eq_refl).
      destruct (fs w !! to_str out) as [d'|] eqn:Hthere.
      * destruct (stdin w) as [|ans rest] eqn:Hstdin.
        -- rewrite (convert_file_resolved self E _ _ out w Hin' Hout) in H.
           erewrite bind_ret in H by apply exists_run.
           rewrite Hthere, bool_decide_eq_true_2 in H by eauto.
           erewrite bind_raise in H by (unfold input; rewrite Hstdin; reflexivity).
           now injection H as _ <-.
        -- destruct (String.eqb (lower ans) "y") eqn:Hans.
           ++ apply String.eqb_eq in Hans.
              rewrite (convert_file_overwrite self E _ _ out w Hin' Hout ans rest) in H
                by eauto.
              rewrite convert_run in H.
              now rewrite (try_except_frame _ _ _ _ _ _ _ _ H Hk).
           ++ apply String.eqb_neq in Hans.
              rewrite (convert_file_declined self E _ _ out w Hin' Hout ans rest) in H
                by eauto.
              now injection H as _ <-.
      * rewrite (convert_file_fresh self E _ _ out w Hin' Hout Hthere) in H.
        rewrite convert_run in H.
        now rewrite (try_except_frame _ _ _ _ _ _ _ _ H Hk).
    + unfold convert_file in H.
      erewrite bind_ret in H by apply exists_run.
      rewrite Hin, bool_decide_eq_true_2 in H by eauto. cbn [negb] in H.
      erewrite bind_raise in H by (rewrite Hout; apply lift_run).
      now injection H as _ <-.
  - rewrite convert_file_missing in H by exact Hin. now injection H as _ <-.
Qed.

(** ** The derived output is never the input *)

Lemma append_inj_l (a b c : string) : a +:+ b = a +:+ c -> b = c.
Proof.
  induction a as [|x a IH]; [auto|].
  change (String x (a +:+ b) = String x (a +:+ c) -> b = c).
  intros H. injection H as H. auto.
Qed.

(** The string splits at the index that [rfind] returns. *)
Lemma rfind_split (c : ascii) (s : string) (i : nat) :
  rfind c s = Some i -> exists t, s = String.substring 0 i s +:+ String c t.
Proof.
  revert i. induction s as [|a s IH]; intros i H; [discriminate|].
  cbn [rfind] in H. destruct (rfind c s) as [j|].
  - injection H as <-. destruct (IH j eq_refl) as [t Ht].
    exists t. cbn [String.substring].
    change (String a s = String a (String.substring 0 j s +:+ String c t)).
    now rewrite <- Ht.
  - destruct (Ascii.eqb_spec a c) as [->|]; [|discriminate].
    injection H as <-. exists s. reflexivity.
Qed.

(** A name is its stem followed by nothing or by a suffix that starts
    with a dot. *)
Lemma stem_suffix (p : Path) :
  exists suf, name p = stem p +:+ suf /\ (suf = "" \/ exists t, suf = String "." t).
Proof.
  unfold stem. destruct (rfind "." (name p)) as [i|] eqn:Hr.
  - destruct ((0 <? i)%nat && (i <? String.length (name p) - 1)%nat).
    + destruct (rfind_split _ _ _ Hr) as [t Ht]. exists (String "." t). eauto.
    + exists "". rewrite append_empty_r. auto.
  - exists "". rewrite append_empty_r. auto.
Qed.

Lemma plex_name_differs (p : Path) : stem p +:+ "_plex.mp4" <> name p.
Proof.
  destruct (stem_suffix p) as (suf & Hn & Hs). rewrite Hn. intros H.
  apply append_inj_l in H. destruct Hs as [->|[t ->]]; discriminate.
Qed.

Lemma join_cons (sep x : string) (l : list string) :
  l <> [] -> join sep (x :: l) = x +:+ sep +:+ join sep l.
Proof. destruct l; [congruence|reflexivity]. Qed.

Lemma join_snoc_inj (sep : string) (l : list string) (a b : string) :
  join sep (l ++ [a]) = join sep (l ++ [b]) -> a = b.
Proof.
  induction l as [|x l IH]; [auto|].
  change ((x :: l) ++ [a]) with (x :: (l ++ [a])).
  change ((x :: l) ++ [b]) with (x :: (l ++ [b])).
  rewrite !join_cons by (intros H; now apply app_eq_nil in H).
  intros H. apply append_inj_l, append_inj_l in H. auto.
Qed.

Lemma to_str_snoc (r : string) (l : list string) (a : string) :
  to_str (mkPath r (l ++ [a])) = r +:+ join "/" (l ++ [a]).
Proof. unfold to_str. cbn [root parts]. destruct r; destruct l; reflexivity. Qed.

Lemma parts_name (p : Path) :
  name p <> "" -> parts p = removelast (parts p) ++ [name p].
Proof.
  intros H. apply app_removelast_last.
  intros Hnil. apply H. unfold name. now rewrite Hnil.
Qed.

Lemma beside_differs (p : Path) : name p <> "" -> to_str (beside p) <> to_str p.
Proof.
  intros Hn. pose proof (plex_name_differs p) as Hd.
  pose proof (parts_name p Hn) as Hp. unfold beside.
  set (n' := stem p +:+ "_plex.mp4") in *. set (n := name p) in *.
  set (l0 := removelast (parts p)) in *. clearbody n' n l0.
  destruct p as [r l]. cbn [root parts] in *. subst l.
  rewrite !to_str_snoc. intros H.
  apply append_inj_l, join_snoc_inj in H. congruence.
Qed.

Lemma resolve_output_default (p out : Path) :
  resolve_output p None = Ret out -> name p <> "" /\ out = beside p.
Proof.
  unfold resolve_output, with_name.
  destruct (String.eqb (name p) "") eqn:Hn; [discriminate|].
  destruct (_ || _ || _); [discriminate|].
  intros H. injection H as <-. apply String.eqb_neq in Hn. auto.
Qed.

(** X6. When no output path is given, the derived output path is never
    the input path, and a call of [convert_file], however it ends,
    leaves the input file as it was. *)
Theorem convert_file_keeps_input (self : PlexConverter) (E : env)
  (input_file : pathlike) (w : world) :
  (forall out, resolve_output (Path_ input_file) None = Ret out ->
               to_str out <> to_str (Path_ input_file))
  /\ fs (convert_file self E input_file None w).2 !! to_str (Path_ input_file)
     = fs w !! to_str (Path_ input_file).
Proof.
  assert (Hd : forall out, resolve_output (Path_ input_file) None = Ret out ->
                           to_str out <> to_str (Path_ input_file)).
  { intros out H. apply resolve_output_default in H. destruct H as [Hn ->].
    now apply beside_differs. }
  split; [exact Hd|].
  destruct (convert_file self E input_file None w) as [r w'] eqn:H. cbn [snd].
  eapply convert_file_frame; [exact H|].
  intros out Hout Heq. now apply (Hd out Hout).
Qed.

(** ** The terminal at its end *)

Lemma convert_file_eof_run (self : PlexConverter) (E : env)
  (input_file : pathlike) (output_file : option pathlike) (out : Path) (w : world) :
  is_Some (fs w !! to_str (Path_ input_file)) ->
  resolve_output (Path_ input_file) output_file = Ret out ->
  is_Some (fs w !! to_str out) ->
  stdin w = [] ->
  convert_file self E input_file output_file w = (Raise EOFError, asked out [] w).
Proof.
  intros Hin Hout Hthere Hstdin.
  rewrite (convert_file_resolved self E _ _ out w Hin Hout).
  erewrite bind_ret by apply exists_run.
  rewrite bool_decide_eq_true_2 by exact Hthere.
  erewrite bind_raise; [reflexivity|].
  unfold input. now rewrite Hstdin.
Qed.

(** X7. When a file is at the resolved output path and the terminal has
    no line left, the [EOFError] of [input] leaves [convert_file]: no
    program is run and the filesystem is as it was. *)
Theorem convert_file_eof (self : PlexConverter) (E : env)
  (input_file : pathlike) (output_file : option pathlike) (out : Path) (w : world) :
  is_Some (fs w !! to_str (Path_ input_file)) ->
  resolve_output (Path_ input_file) output_file = Ret out ->
  is_Some (fs w !! to_str out) ->
  stdin w = [] ->
  convert_file self E input_file output_file w = (Raise EOFError, asked out [] w).
Proof. apply convert_file_eof_run. Qed.

Lemma convert_file_eof_witness :
  convert_file plex studio (PStr "movie.mkv") None
    (mkWorld (fs w_taken) [] [])
  = (Raise EOFError,
     mkWorld (fs w_taken) []
       [Input "Output file 'movie_plex.mp4' already exists. Overwrite? [y/N]: "]).
Proof.
  apply (convert_file_eof plex studio (PStr "movie.mkv") None (of_str "movie_plex.mp4")
           (mkWorld (fs w_taken) [] [])).
  - vm_compute. eauto.
  - reflexivity.
  - vm_compute. eauto.
  - reflexivity.
Defined.

Lemma convert_file_keeps_input_witness :
  to_str (beside (of_str "movie.mkv")) <> "movie.mkv"
  /\ fs (convert_file plex (encoder [] (Some partial_output) (Exits 1))
           (PStr "movie.mkv") None w_fresh).2 !! "movie.mkv" = Some movie.
Proof.
  destruct (convert_file_keeps_input plex (encoder [] (Some partial_output) (Exits 1))
              (PStr "movie.mkv") w_fresh) as [Hd Hfs].
  split.
  - apply (Hd (beside (of_str "movie.mkv"))). reflexivity.
  - etransitivity; [exact Hfs|reflexivity].
Defined.

(** ** A batch that stops early *)

Lemma batch_loop_app (self : PlexConverter) (E : env) (n i : nat) (pre : list Path)
  (w w1 : world) (oks : list bool) :
  runs self E n i pre w oks w1 ->
  forall rest s f,
    batch_loop self E n i (pre ++ rest) s f w
    = batch_loop self E n (i + length pre) rest
        (s + successes oks) (f + failures oks) w1.
Proof.
  induction 1 as [i w | i file pre w ok w1 oks w2 Hc Hr IH]; intros rest s f.
  - cbn. unfold successes, failures. cbn. now rewrite !Nat.add_0_r.
  - change ((file :: pre) ++ rest) with (file :: (pre ++ rest)).
    erewrite batch_loop_step by exact Hc. rewrite IH.
    unfold successes, failures. cbn [length].
    replace (S i + length pre)%nat with (i + S (length pre))%nat by lia.
    destruct ok; cbn; f_equal; lia.
Qed.

(** X8. An exception that leaves one call of [convert_file] leaves the
    whole batch: after the files before it have been converted, the
    files after it are not attempted and no report is printed. *)
Theorem run_batch_aborts (self : PlexConverter) (E : env) (pre rest : list Path)
  (file : Path) (w w1 w2 : world) (oks : list bool) (e : exn) :
  let files := pre ++ file :: rest in
  runs self E (length files) 1 pre w oks w1 ->
  convert_file self E (PPath file) None
    (processing (length files) (1 + length pre) file w1) = (Raise e, w2) ->
  run_batch self E files w = (Raise e, w2).
Proof.
  intros files Hr Hc. unfold run_batch.
  erewrite bind_raise; [reflexivity|].
  subst files. erewrite batch_loop_app by exact Hr.
  now apply batch_loop_raise.
Qed.

Lemma run_batch_aborts_witness :
  exists w2,
    run_batch plex studio [of_str "movie.mkv"; of_str "a.mkv"]
      (mkWorld (<["a.mkv" := movie]> (fs w_taken)) [] [])
    = (Raise EOFError, w2)
    /\ fs w2 !! "a_plex.mp4" = None.
Proof.
  eexists. split.
  - eapply (run_batch_aborts plex studio [] [of_str "a.mkv"] (of_str "movie.mkv")
              (mkWorld (<["a.mkv" := movie]> (fs w_taken)) [] [])
              (mkWorld (<["a.mkv" := movie]> (fs w_taken)) [] []) _ [] EOFError).
    + apply runs_nil.
    + vm_compute. reflexivity.
  - vm_compute. reflexivity.
Defined.

(** ** A batch that converts nothing *)

Lemma list_files_run (i : nat) (files : list Path) (w : world) :
  list_files i files w = (Ret tt, add_events w (listing i files)).
Proof.
  revert i w. induction files as [|file rest IH]; intros i w.
  - cbn. now rewrite add_events_nil.
  - cbn [list_files listing]. erewrite bind_ret by apply print_run.
    rewrite IH, add_events_app. reflexivity.
Qed.

(** X9. [batch_convert] converts nothing in two cases.  When no entry of
    the directory has a video extension it prints one line and asks
    nothing.  When the answer to its question is not [y] it prints the
    list, asks, and prints that the batch is cancelled; no program is
    run and the filesystem is as it was. *)
Theorem batch_convert_nothing_done (self : PlexConverter) (E : env) (directory : string)
  (w : world) :
  let files := video_files_of self E (of_str directory) in
  (files = [] ->
   batch_convert self E directory w
   = (Ret tt, add_events w [Print ("No video files found in "
                                   +:+ to_str (of_str directory))]))
  /\ (forall ans rest,
         files <> [] ->
         stdin w = ans :: rest ->
         lower ans <> "y" ->
         batch_convert self E directory w
         = (Ret tt,
            mkWorld (fs w) rest
              (trace w
               ++ [Print ("Found " +:+ pretty (length files) +:+ " video file(s) to convert:")]
               ++ listing 1 files
               ++ [proceed_question; Print "Batch conversion cancelled."]))).
Proof.
  intros files. split.
  - intros Hnil. unfold batch_convert. fold files. now rewrite Hnil.
  - intros ans rest Hne Hstdin Hans. unfold batch_convert. fold files.
    destruct files as [|f fs'] eqn:Hfiles; [congruence|].
    erewrite bind_ret by apply print_run.
    erewrite bind_ret by apply list_files_run.
    erewrite bind_ret by (apply input_run; cbn; exact Hstdin).
    apply String.eqb_neq in Hans. rewrite Hans. cbn [negb].
    rewrite print_run. unfold add_events, proceed_question. cbn [fs stdin trace].
    now rewrite <- !app_assoc.
Qed.

Lemma batch_convert_nothing_done_witness :
  batch_convert plex (mkEnv (ffprobe studio) (ffmpeg studio) true (fun _ => ["notes.txt"]))
    "." w_shelf
  = (Ret tt, add_events w_shelf [Print "No video files found in ."])
  /\ exists w',
       batch_convert plex studio "." (mkWorld (fs w_shelf) ["no"] []) = (Ret tt, w')
       /\ fs w' = fs w_shelf
       /\ last (trace w') = Some (Print "Batch conversion cancelled.").
Proof.
  split.
  - apply (batch_convert_nothing_done plex
             (mkEnv (ffprobe studio) (ffmpeg studio) true (fun _ => ["notes.txt"]))
             "." w_shelf). reflexivity.
  - eexists. split.
    + apply (batch_convert_nothing_done plex studio "." (mkWorld (fs w_shelf) ["no"] [])
               ) with (ans := "no") (rest := []).
      * discriminate.
      * reflexivity.
      * discriminate.
    + split; reflexivity.
Defined.

(** ** The candidates of a batch *)

Lemma substring_whole (s : string) : String.substring 0 (String.length s) s = s.
Proof. induction s as [|c s IH]; [reflexivity|]. cbn. now rewrite IH. Qed.

Lemma substring_app_r (a b : string) :
  String.substring (String.length a) (String.length b) (a +:+ b) = b.
Proof. induction a as [|c a IH]; [apply substring_whole|]. cbn. exact IH. Qed.

Lemma substring_split (s : string) (i : nat) :
  (i <= String.length s)%nat ->
  s = String.substring 0 i s +:+ String.substring i (String.length s - i) s.
Proof.
  revert i. induction s as [|c s IH]; intros i Hi.
  - destruct i; reflexivity.
  - destruct i as [|i].
    + rewrite Nat.sub_0_r, substring_whole. reflexivity.
    + cbn in Hi. cbn [String.substring String.length Nat.sub].
      change (String c s = String c (String.substring 0 i s
                                     +:+ String.substring i (String.length s - i) s)).
      rewrite <- IH by lia. reflexivity.
Qed.

(** [endswith] holds exactly of the strings that are something followed
    by the suffix. *)
Lemma endswith_app (a suf : string) : endswith (a +:+ suf) suf = true.
Proof.
  unfold endswith. rewrite append_length.
  replace (String.length a + String.length suf - String.length suf)%nat
    with (String.length a) by lia.
  rewrite substring_app_r, String.eqb_refl.
  apply andb_true_iff. split; [|reflexivity]. apply Nat.leb_le. lia.
Qed.

Lemma endswith_inv (s suf : string) :
  endswith s suf = true -> exists a, s = a +:+ suf.
Proof.
  unfold endswith. intros H. apply andb_true_iff in H. destruct H as [Hle Heq].
  apply Nat.leb_le in Hle. apply String.eqb_eq in Heq.
  exists (String.substring 0 (String.length s - String.length suf) s).
  pose proof (substring_split s (String.length s - String.length suf)) as Hs.
  replace (String.length s - (String.length s - String.length suf))%nat
    with (String.length suf) in Hs by lia.
  rewrite Heq in Hs. apply Hs. lia.
Qed.

Lemma endswith_same_length (s e1 e2 : string) :
  endswith s e1 = true -> endswith s e2 = true ->
  String.length e1 = String.length e2 -> e1 = e2.
Proof.
  unfold endswith. intros H1 H2 Hlen.
  apply andb_true_iff in H1. destruct H1 as [_ H1]. apply String.eqb_eq in H1.
  apply andb_true_iff in H2. destruct H2 as [_ H2]. apply String.eqb_eq in H2.
  rewrite <- H1, <- H2, Hlen. reflexivity.
Qed.

Lemma glob_in (E : env) (directory : Path) (ext : string) (p : Path) :
  In p (glob E directory ext)
  <-> exists n, In n (scandir E directory) /\ endswith n ext = true
                /\ p = child directory n.
Proof.
  unfold glob. rewrite in_map_iff. split.
  - intros (n & <- & Hn). apply filter_In in Hn. destruct Hn as [Hn He]. eauto.
  - intros (n & Hn & He & ->). exists n. split; [reflexivity|].
    apply filter_In. auto.
Qed.

Lemma video_files_in (self : PlexConverter) (E : env) (directory : Path) (p : Path) :
  In p (video_files_of self E directory)
  <-> exists n ext, In n (scandir E directory) /\ In ext (video_extensions self)
                    /\ endswith n ext = true /\ p = child directory n.
Proof.
  unfold video_files_of. rewrite in_flat_map. split.
  - intros (ext & Hext & Hp). apply glob_in in Hp.
    destruct Hp as (n & Hn & He & ->). eauto 8.
  - intros (n & ext & Hn & Hext & He & ->). exists ext. split; [exact Hext|].
    apply glob_in. eauto.
Qed.

(** X10. The candidates of a batch are exactly the entries of the
    directory whose name is some text followed by one of the video
    extensions, letter case as written. *)
Theorem video_files_are_suffixed (self : PlexConverter) (E : env) (directory p : Path) :
  In p (video_files_of self E directory)
  <-> exists a ext, In (a +:+ ext) (scandir E directory)
                    /\ In ext (video_extensions self)
                    /\ p = child directory (a +:+ ext).
Proof.
  rewrite video_files_in. split.
  - intros (n & ext & Hn & Hext & He & ->).
    apply endswith_inv in He. destruct He as [a ->]. eauto 8.
  - intros (a & ext & Hn & Hext & ->).
    exists (a +:+ ext), ext. repeat split; try assumption. apply endswith_app.
Qed.

Lemma child_inj (directory : Path) (n1 n2 : string) :
  child directory n1 = child directory n2 -> n1 = n2.
Proof.
  unfold child. intros H. injection H as H.
  apply app_inj_tail in H. now destruct H.
Qed.

Lemma glob_NoDup (E : env) (directory : Path) (ext : string) :
  List.NoDup (scandir E directory) -> List.NoDup (glob E directory ext).
Proof.
  intros H. unfold glob. apply List.NoDup_map_NoDup_ForallPairs.
  - intros n1 n2 _ _. apply child_inj.
  - now apply List.NoDup_filter.
Qed.

Lemma flat_map_NoDup {A B} (f : A -> list B) (l : list A) :
  List.NoDup l ->
  (forall a, In a l -> List.NoDup (f a)) ->
  (forall a1 a2 b, In a1 l -> In a2 l -> In b (f a1) -> In b (f a2) -> a1 = a2) ->
  List.NoDup (flat_map f l).
Proof.
  induction 1 as [|a l Ha Hl IH]; intros Hf Hd; cbn [flat_map]; [constructor|].
  apply List.NoDup_app.
  - apply Hf. now left.
  - apply IH.
    + intros a' Ha'. apply Hf. now right.
    + intros a1 a2 b H1 H2. apply Hd; now right.
  - intros b Hb Hb'. apply in_flat_map in Hb'. destruct Hb' as (a' & Ha' & Hb').
    assert (a = a') by (apply (Hd a a' b); auto; [now left|now right]).
    subst a'. contradiction.
Qed.

(** X11. When the entries of the directory are distinct, so are the
    candidates of a batch: no file is converted twice in one run. *)
Theorem video_files_NoDup (quality : Z) (preset audio_bitrate : string)
  (copy_subtitles : bool) (E : env) (directory : Path) :
  List.NoDup (scandir E directory) ->
  List.NoDup (video_files_of (init quality preset audio_bitrate copy_subtitles) E directory).
Proof.
  intros H. unfold video_files_of. apply flat_map_NoDup.
  - cbn. repeat constructor; cbn; intuition discriminate.
  - intros ext _. now apply glob_NoDup.
  - intros e1 e2 p H1 H2 Hp1 Hp2.
    apply glob_in in Hp1. destruct Hp1 as (n1 & _ & He1 & ->).
    apply glob_in in Hp2. destruct Hp2 as (n2 & _ & He2 & Heq).
    apply child_inj in Heq. subst n2.
    apply (endswith_same_length n1); try assumption.
    cbn in H1, H2.
    repeat (destruct H1 as [<-|H1]); try contradiction;
      repeat (destruct H2 as [<-|H2]); try contradiction; reflexivity.
Qed.

Lemma video_files_NoDup_witness :
  List.NoDup (video_files_of plex studio (of_str ".")).
Proof.
  apply (video_files_NoDup 22 "slow" "192k" false studio (of_str ".")).
  cbn. repeat constructor; cbn; intuition discriminate.
Defined.

Lemma beside_name (p : Path) : name (beside p) = stem p +:+ "_plex.mp4".
Proof. unfold name, beside. cbn [parts]. apply last_last. Qed.

(** X12. The file that a conversion writes by default is itself a
    candidate: when it is an entry of the directory, a later batch in
    that directory converts it again. *)
Theorem default_output_is_candidate (quality : Z) (preset audio_bitrate : string)
  (copy_subtitles : bool) (E : env) (directory file : Path) :
  In (name (beside file)) (scandir E directory) ->
  In (child directory (name (beside file)))
     (video_files_of (init quality preset audio_bitrate copy_subtitles) E directory).
Proof.
  intros H. apply video_files_in.
  exists (name (beside file)), ".mp4". repeat split; [exact H|now left|].
  rewrite beside_name.
  change "_plex.mp4" with ("_plex" +:+ ".mp4").
  rewrite <- append_assoc. apply endswith_app.
Qed.

Lemma default_output_is_candidate_witness :
  In (of_str "a_plex.mp4")
     (video_files_of plex
        (mkEnv (ffprobe studio) (ffmpeg studio) true (fun _ => ["a.mkv"; "a_plex.mp4"]))
        (of_str ".")).
Proof.
  apply (default_output_is_candidate 22 "slow" "192k" false
           (mkEnv (ffprobe studio) (ffmpeg studio) true (fun _ => ["a.mkv"; "a_plex.mp4"]))
           (of_str ".") (of_str "a.mkv")).
  right. left. reflexivity.
Defined.

(** ** The exit status of [main] *)

Lemma check_ffmpeg_run (E : env) (w : world) :
  check_ffmpeg E w = (Ret (ffmpeg_version E), checked w).
Proof. reflexivity. Qed.

(** X13. The exit status of [main] is 2 when the options are rejected
    and 1 when the encoder is not installed, in both cases before
    anything is converted.  After a conversion of one file, and after a
    batch, it is 0 whatever the conversions returned; the batch flag
    makes [main] ignore an input path. *)
Theorem main_exit_status (E : env) (a : argv) (w : world) :
  (parse_args a = None -> (main E a w).1 = Ret 2 /\ fs (main E a w).2 = fs w)
  /\ (forall args,
         parse_args a = Some args -> ffmpeg_version E = false ->
         main E a w
         = (Ret 1,
            add_events (checked w)
              [Print "Error: FFmpeg is not installed or not in PATH.";
               Print "Please install FFmpeg first: https://ffmpeg.org/download.html"]))
  /\ (forall args i ok w',
         parse_args a = Some args -> ffmpeg_version E = true ->
         ns_batch args = false -> ns_input args = Some i -> i <> "" ->
         convert_file (converter_of args) E (PStr i) (PStr <$> ns_output args) (checked w)
         = (Ret ok, w') ->
         main E a w = (Ret 0, w'))
  /\ (forall args w',
         parse_args a = Some args -> ffmpeg_version E = true ->
         ns_batch args = true ->
         batch_convert (converter_of args) E "." (checked w) = (Ret tt, w') ->
         main E a w = (Ret 0, w')).
Proof.
  unfold main. split; [|split; [|split]].
  - now intros ->.
  - intros args -> Hv.
    erewrite bind_ret by apply check_ffmpeg_run. rewrite Hv. cbn [negb].
    repeat (erewrite bind_ret by apply print_run).
    rewrite add_events_app. reflexivity.
  - intros args i ok w' -> Hv Hb Hi Hne Hc.
    erewrite bind_ret by apply check_ffmpeg_run. rewrite Hv, Hb, Hi. cbn [negb].
    destruct i as [|c i]; [congruence|].
    erewrite bind_ret by exact Hc. reflexivity.
  - intros args w' -> Hv Hb Hc.
    erewrite bind_ret by apply check_ffmpeg_run. rewrite Hv, Hb. cbn [negb].
    erewrite bind_ret by exact Hc. reflexivity.
Qed.

Lemma main_exit_status_witness :
  (main studio (mkArgv (Some "movie.mkv") None false (Some "99") None None false) w_fresh).1
  = Ret 2
  /\ (main (mkEnv (ffprobe studio) (ffmpeg studio) false (scandir studio))
        (mkArgv (Some "movie.mkv") None false None None None false) w_fresh).1 = Ret 1
  /\ (main (encoder [] None (Exits 1))
        (mkArgv (Some "movie.mkv") None false None None None false) w_fresh).1 = Ret 0
  /\ (main studio (mkArgv (Some "movie.mkv") None true None None None false)
        (mkWorld (fs w_shelf) ["n"] [])).1 = Ret 0.
Proof.
  split; [|split; [|split]].
  - destruct (main_exit_status studio
                (mkArgv (Some "movie.mkv") None false (Some "99") None None false) w_fresh)
      as (H & _). now apply H.
  - destruct (main_exit_status (mkEnv (ffprobe studio) (ffmpeg studio) false (scandir studio))
                (mkArgv (Some "movie.mkv") None false None None None false) w_fresh)
      as (_ & H & _). now erewrite H.
  - destruct (main_exit_status (encoder [] None (Exits 1))
                (mkArgv (Some "movie.mkv") None false None None None false) w_fresh)
      as (_ & _ & H & _).
    erewrite H; try reflexivity. discriminate.
  - destruct (main_exit_status studio
                (mkArgv (Some "movie.mkv") None true None None None false)
                (mkWorld (fs w_shelf) ["n"] []))
      as (_ & _ & _ & H).
    erewrite H; reflexivity.
Defined.

(** ** The answer to the overwrite question *)

Lemma lower_is_y (s : string) : lower s = "y" <-> s = "y" \/ s = "Y".
Proof.
  split.
  - destruct s as [|c [|c' s']]; cbn [lower]; try discriminate.
    intros H. injection H as H. revert H.
    destruct c as [[] [] [] [] [] [] [] []]; intros H; try discriminate H; auto.
  - intros [->| ->]; reflexivity.
Qed.

(** X14. The overwrite question is taken as agreed to only by the answer
    [y] or [Y]: then the conversion starts.  Any other answer, [yes]
    and the empty line included, skips the file. *)
Theorem overwrite_only_on_y (self : PlexConverter) (E : env)
  (input_file : pathlike) (output_file : option pathlike) (out : Path) (w : world)
  (ans : string) (rest : list string) :
  is_Some (fs w !! to_str (Path_ input_file)) ->
  resolve_output (Path_ input_file) output_file = Ret out ->
  is_Some (fs w !! to_str out) ->
  stdin w = ans :: rest ->
  (ans = "y" \/ ans = "Y" ->
   convert_file self E input_file output_file w
   = convert self E (Path_ input_file) out (asked out rest w))
  /\ (ans <> "y" -> ans <> "Y" ->
      convert_file self E input_file output_file w
      = (Ret false, add_events (asked out rest w) [Print "Skipping..."])).
Proof.
  intros Hin Hout Hthere Hstdin. split.
  - intros Hy. apply lower_is_y in Hy.
    now apply (convert_file_overwrite self E _ _ out w Hin Hout ans rest).
  - intros H1 H2.
    apply (convert_file_declined self E _ _ out w Hin Hout ans rest); try assumption.
    intros Hy. apply lower_is_y in Hy. tauto.
Qed.

Lemma overwrite_only_on_y_witness :
  (convert_file plex studio (PStr "movie.mkv") None
     (mkWorld (fs w_taken) ["yes"] [])).1 = Ret false
  /\ (convert_file plex studio (PStr "movie.mkv") None
        (mkWorld (fs w_taken) ["Y"] [])).1 = Ret true.
Proof.
  destruct (overwrite_only_on_y plex studio (PStr "movie.mkv") None (of_str "movie_plex.mp4")
              (mkWorld (fs w_taken) ["yes"] []) "yes" []) as [_ Hno];
    [vm_compute; eauto|reflexivity|vm_compute; eauto|reflexivity|].
  destruct (overwrite_only_on_y plex studio (PStr "movie.mkv") None (of_str "movie_plex.mp4")
              (mkWorld (fs w_taken) ["Y"] []) "Y" []) as [Hyes _];
    [vm_compute; eauto|reflexivity|vm_compute; eauto|reflexivity|].
  split.
  - rewrite Hno by discriminate. reflexivity.
  - rewrite Hyes by auto. reflexivity.
Defined.

(** ** Hours that no float can hold *)

Lemma token_fields (hh mm ip : string) (fp : option string) :
  is_number hh = true ->
  is_number mm = true ->
  is_number ip = true ->
  (forall f, fp = Some f -> all_chars is_digit f = true) ->
  split ":" (hh +:+ ":" +:+ mm +:+ ":" +:+ seconds_field ip fp)
  = [hh; mm; seconds_field ip fp].
Proof.
  intros Hh Hm Hip Hfp.
  destruct (is_number_inv hh Hh) as (c1 & s1 & E1 & _ & Hd1).
  destruct (is_number_inv mm Hm) as (c2 & s2 & E2 & _ & Hd2).
  change (":" +:+ mm +:+ ":" +:+ seconds_field ip fp)
    with (String ":" (mm +:+ String ":" (seconds_field ip fp))).
  rewrite split_char_app by now apply number_no_colon.
  rewrite split_char_app by now apply number_no_colon.
  rewrite split_char_whole by now apply seconds_no_colon.
  reflexivity.
Qed.

Lemma token_no_space (hh mm ip : string) (fp : option string) :
  is_number hh = true ->
  is_number mm = true ->
  is_number ip = true ->
  (forall f, fp = Some f -> all_chars is_digit f = true) ->
  all_chars (fun c => negb (is_space c))
    (hh +:+ ":" +:+ mm +:+ ":" +:+ seconds_field ip fp) = true.
Proof.
  intros Hh Hm Hip Hfp.
  destruct (is_number_inv hh Hh) as (c1 & s1 & E1 & _ & Hd1).
  destruct (is_number_inv mm Hm) as (c2 & s2 & E2 & _ & Hd2).
  destruct (is_number_inv ip Hip) as (c3 & s3 & E3 & _ & Hd3).
  change (":" +:+ mm +:+ ":" +:+ seconds_field ip fp)
    with (String ":" (mm +:+ String ":" (seconds_field ip fp))).
  rewrite all_chars_app, (number_no_space _ Hd1). cbn [all_chars andb].
  change (negb (is_space ":")) with true. cbn [andb].
  rewrite all_chars_app, (number_no_space _ Hd2). cbn [all_chars andb].
  change (negb (is_space ":")) with true. cbn [andb].
  unfold seconds_field. rewrite all_chars_app, (number_no_space _ Hd3).
  destruct fp as [f|]; [|reflexivity].
  change ("." +:+ f) with (String "." f). cbn [all_chars andb].
  apply number_no_space, Hfp. reflexivity.
Qed.

Lemma current_time_fields (hh mm ip : string) (fp : option string) :
  is_number hh = true ->
  is_number mm = true ->
  is_number ip = true ->
  (forall f, fp = Some f -> all_chars is_digit f = true) ->
  (String.length hh <= int_max_str_digits)%nat ->
  (String.length mm <= int_max_str_digits)%nat ->
  current_time hh mm (seconds_field ip fp)
  = (i ← float_of_int (decimal hh * 3600 + decimal mm * 60);
     Ret (fadd i (seconds_value ip fp))).
Proof.
  intros Hh Hm Hip Hfp Lh Lm. unfold current_time.
  rewrite (int_number hh Hh Lh), (int_number mm Hm Lm).
  rewrite (float_seconds ip fp Hip Hfp). reflexivity.
Qed.

(** X15. The duration is known and the encoder writes a line whose time
    token [HH:MM:SS] or [HH:MM:SS.fraction] is made of decimal digits,
    hours and minutes of at most 4300 digits each, so that [int] reads
    them.  When [hours * 3600 + minutes * 60] is too large for a float,
    the [OverflowError] of the addition is not one of the two
    exceptions that the inner [try] passes over: it leaves the
    monitoring loop, which reads no further line, the outer handler
    prints the error and [convert_file] returns [False].  The child is
    neither waited for nor terminated, and what it has left at the
    output path stays there. *)
Theorem convert_file_overflow (self : PlexConverter) (E : env)
  (input_file : pathlike) (output_file : option pathlike) (out : Path) (w w0 : world)
  (d : float) (c : process) (pre rest hh mm ip : string) (fp : option string)
  (lines : list string) :
  let token := hh +:+ ":" +:+ mm +:+ ":" +:+ seconds_field ip fp in
  is_Some (fs w !! to_str (Path_ input_file)) ->
  resolve_output (Path_ input_file) output_file = Ret out ->
  starts out w w0 ->
  probe_outcome E (Path_ input_file) = Ret (Some d) ->
  truthy d = true ->
  ffmpeg E (build_cmd self (Path_ input_file) out) = Spawns c ->
  stderr c = (pre +:+ "time=" +:+ token +:+ rest) :: lines ->
  contains "time=" (pre +:+ "time") = false ->
  contains "time=" (token +:+ rest) = false ->
  starts_word rest = false ->
  is_number hh = true ->
  is_number mm = true ->
  is_number ip = true ->
  (forall f, fp = Some f -> all_chars is_digit f = true) ->
  (String.length hh <= int_max_str_digits)%nat ->
  (String.length mm <= int_max_str_digits)%nat ->
  float_of_int (decimal hh * 3600 + decimal mm * 60) = Raise OverflowError ->
  convert_file self E input_file output_file w
  = (Ret false,
     mkWorld (after_child out c (fs w)) (stdin w0)
       (trace (announced self (Path_ input_file) out w0)
        ++ [Run (probe_cmd (Path_ input_file));
            Popen (build_cmd self (Path_ input_file) out);
            PrintError OverflowError])).
Proof.
  intros token Hin Hout Hst Hp Hd Hc Hlines Hpre Hone Hrest Hh Hm Hip Hfp Lh Lm Hover.
  assert (Hne : token <> "").
  { destruct (is_number_inv hh Hh) as (c1 & s1 & -> & _). discriminate. }
  assert (Hprog : progress_of d token = Raise OverflowError).
  { unfold progress_of, token. rewrite token_fields by assumption.
    rewrite current_time_fields by assumption. now rewrite Hover. }
  assert (Hmon : monitor (Some d) (stderr c) nowhere = (Raise OverflowError, nowhere)).
  { rewrite Hlines. cbn [monitor]. erewrite bind_raise; [reflexivity|].
    rewrite monitor_line_token;
      [now rewrite Hprog|assumption..|now apply token_no_space|assumption].
  }
  destruct (convert_file_starts self E _ _ _ _ _ Hin Hout Hst) as [-> Hfs].
  unfold try_except. rewrite (try_block_spawned _ _ _ _ _ (Some d) c Hp Hc).
  rewrite supervise_any. unfold monitor_outcome, monitor_events. rewrite Hmon.
  cbn [fst snd]. rewrite on_exception_run.
  unfold announced, add_events, nowhere. cbn [fs stdin trace].
  rewrite Hfs, app_nil_r. now rewrite <- !app_assoc.
Qed.

Lemma convert_file_overflow_witness :
  exists w',
    convert_file plex
      (encoder [("size=0kB time=" +:+ endless +:+ " bitrate=1");
                "size=9kB time=00:00:01.00"] (Some movie) (Exits 0))
      (PStr "movie.mkv") None w_fresh = (Ret false, w')
    /\ last (trace w') = Some (PrintError OverflowError)
    /\ fs w' !! "movie_plex.mp4" = Some movie.
Proof.
  eexists. split.
  - apply (convert_file_overflow plex
             (encoder [("size=0kB time=" +:+ endless +:+ " bitrate=1");
                       "size=9kB time=00:00:01.00"] (Some movie) (Exits 0))
             (PStr "movie.mkv") None (of_str "movie_plex.mp4") w_fresh w_fresh
             (Z2F 100)
             (mkProcess [("size=0kB time=" +:+ endless +:+ " bitrate=1");
                         "size=9kB time=00:00:01.00"] (Some movie) (Exits 0))
             "size=0kB " " bitrate=1"
             ("1" +:+ String.concat "" (repeat "0000000000" 31)) "00" "00" (Some "00")
             ["size=9kB time=00:00:01.00"]).
    + vm_compute. eauto.
    + reflexivity.
    + left. split; reflexivity.
    + vm_compute. reflexivity.
    + reflexivity.
    + reflexivity.
    + vm_compute. reflexivity.
    + vm_compute. reflexivity.
    + vm_compute. reflexivity.
    + reflexivity.
    + vm_compute. reflexivity.
    + reflexivity.
    + reflexivity.
    + intros f Hf. injection Hf as <-. reflexivity.
    + apply Nat.leb_le. vm_compute. reflexivity.
    + apply Nat.leb_le. vm_compute. reflexivity.
    + vm_compute. reflexivity.
  - split; vm_compute; reflexivity.
Defined.

(** ** The terminal during a conversion *)

Lemma try_except_stdin (E : env) (cmd : list string) (p out : Path) (w : world) :
  stdin (try_except E cmd p out w).2 = stdin w.
Proof.
  unfold try_except, try_block. rewrite get_duration_any.
  destruct (probe_outcome E p) as [duration|e].
  - rewrite popen_run. destruct (ffmpeg E cmd) as [|c]; [reflexivity|].
    rewrite supervise_any.
    destruct (monitor_outcome duration (stderr c)) as [[]|e].
    + destruct (finish c) as [rc|]; [reflexivity|].
      now rewrite on_interrupt_bound.
    + destruct e; try reflexivity. now rewrite on_interrupt_bound.
  - destruct e; reflexivity.
Qed.

(** X16. The calls of [input] that [convert_file] makes take at most
    one line from the terminal, and none when nothing is at the
    resolved output path. *)
Theorem convert_file_asks_once (self : PlexConverter) (E : env)
  (input_file : pathlike) (output_file : option pathlike) (w : world) :
  let w' := (convert_file self E input_file output_file w).2 in
  (stdin w' = stdin w \/ stdin w' = tl (stdin w))
  /\ ((forall out, resolve_output (Path_ input_file) output_file = Ret out ->
                   fs w !! to_str out = None) ->
      stdin w' = stdin w).
Proof.
  intros w'. subst w'.
  destruct (fs w !! to_str (Path_ input_file)) as [d|] eqn:Hin.
  - assert (Hin' : is_Some (fs w !! to_str (Path_ input_file))) by eauto.
    destruct (resolve_output (Path_ input_file) output_file) as [out|e] eqn:Hout.
    + destruct (fs w !! to_str out) as [d'|] eqn:Hthere.
      * split; [|intros H; specialize (H out eq_refl); congruence].
        destruct (stdin w) as [|ans rest] eqn:Hstdin.
        -- left. erewrite convert_file_eof_run by eauto. reflexivity.
        -- right. destruct (String.eqb (lower ans) "y") eqn:Hans.
           ++ apply String.eqb_eq in Hans.
              rewrite (convert_file_overwrite self E _ _ out w Hin' Hout ans rest)
                by eauto.
              rewrite convert_run, try_except_stdin. reflexivity.
           ++ apply String.eqb_neq in Hans.
              rewrite (convert_file_declined self E _ _ out w Hin' Hout ans rest)
                by eauto.
              reflexivity.
      * rewrite (convert_file_fresh self E _ _ out w Hin' Hout Hthere).
        rewrite convert_run, try_except_stdin. cbn. auto.
    + unfold convert_file.
      erewrite bind_ret by apply exists_run.
      rewrite Hin, bool_decide_eq_true_2 by eauto. cbn [negb].
      erewrite bind_raise by (rewrite Hout; apply lift_run). cbn. auto.
  - rewrite convert_file_missing by exact Hin. cbn. auto.
Qed.

Lemma convert_file_asks_once_witness :
  stdin (convert_file plex studio (PStr "movie.mkv") None
           (mkWorld (fs w_fresh) ["y"; "n"] [])).2 = ["y"; "n"].
Proof.
  destruct (convert_file_asks_once plex studio (PStr "movie.mkv") None
              (mkWorld (fs w_fresh) ["y"; "n"] [])) as [_ H].
  etransitivity; [apply H|reflexivity].
  intros out Hout. injection Hout as <-. reflexivity.
Defined.

(** * The batch as a whole *)

(** ** C4: the batch goes through every file *)






(** * The output path, as text *)

Lemma split_join (l : list string) :
  Forall (fun x => all_chars (other_than "/") x = true) l ->
  l <> [] ->
  split "/" (join "/" l) = l.
Proof.
  induction 1 as [|x l Hx Hl IH]; intros Hne; [congruence|].
  destruct l as [|y l'].
  - cbn [join]. now apply split_char_whole.
  - change (join "/" (x :: y :: l')) with (x +:+ String "/" (join "/" (y :: l'))).
    rewrite split_char_app by exact Hx. f_equal. apply IH. discriminate.
Qed.

Lemma component_inv (c : string) :
  component c = true ->
  kept c = true /\ all_chars (other_than "/") c = true
  /\ exists a t, c = String a t /\ a <> "/"%char.
Proof.
  unfold component. intros H. apply andb_prop in H. destruct H as [Hk Hs].
  split; [exact Hk|]. split; [exact Hs|].
  destruct c as [|a t]; [discriminate Hk|].
  exists a, t. split; [reflexivity|].
  cbn in Hs. apply andb_prop in Hs. destruct Hs as [Ha _].
  unfold other_than in Ha. intros ->. discriminate Ha.
Qed.

Lemma join_head (x : string) (l : list string) :
  component x = true ->
  exists a t, join "/" (x :: l) = String a t /\ a <> "/"%char.
Proof.
  intros H. destruct (component_inv x H) as (_ & _ & a & t & -> & Ha).
  destruct l as [|y l']; cbn [join]; eexists a, _; (split; [reflexivity|exact Ha]).
Qed.

Lemma parse_root_relative (a : ascii) (t : string) :
  a <> "/"%char -> parse_root (String a t) = "".
Proof.
  intros Ha. destruct a as [[] [] [] [] [] [] [] []]; try reflexivity.
  now contradiction Ha.
Qed.

Lemma parse_root_absolute (a : ascii) (t : string) :
  a <> "/"%char -> parse_root (String "/" (String a t)) = "/".
Proof.
  intros Ha. destruct a as [[] [] [] [] [] [] [] []]; try reflexivity.
  now contradiction Ha.
Qed.

Lemma filter_kept (l : list string) :
  Forall (fun c => component c = true) l -> List.filter kept l = l.
Proof.
  induction 1 as [|c l Hc _ IH]; [reflexivity|].
  cbn [List.filter]. destruct (component_inv c Hc) as (-> & _). now rewrite IH.
Qed.

(** Parsing the text of a path gives back its root and components. *)
Lemma of_str_text (absolute : bool) (l : list string) :
  Forall (fun c => component c = true) l ->
  l <> [] ->
  of_str (path_text absolute l) = mkPath (if absolute then "/" else "") l.
Proof.
  intros Hl Hne.
  assert (Hs : Forall (fun x => all_chars (other_than "/") x = true) l).
  { eapply List.Forall_impl; [|exact Hl].
    intros c Hc. now destruct (component_inv c Hc) as (_ & ? & _). }
  destruct l as [|x l']; [congruence|].
  destruct (join_head x l') as (a & t & Hj & Ha); [now inversion Hl|].
  unfold of_str, path_text. destruct absolute.
  - assert (Hsp : split "/" (String "/" (join "/" (x :: l'))) = "" :: x :: l').
    { change (String "/" (join "/" (x :: l'))) with ("" +:+ String "/" (join "/" (x :: l'))).
      rewrite split_char_app by reflexivity.
      now rewrite split_join by (assumption || discriminate). }
    change ("/" +:+ join "/" (x :: l')) with (String "/" (join "/" (x :: l'))).
    rewrite Hsp, Hj, parse_root_absolute by exact Ha.
    change (List.filter kept ("" :: x :: l')) with (List.filter kept (x :: l')).
    now rewrite filter_kept.
  - change ("" +:+ join "/" (x :: l')) with (join "/" (x :: l')).
    rewrite split_join by (assumption || discriminate).
    rewrite Hj, parse_root_relative by exact Ha.
    now rewrite filter_kept.
Qed.

Lemma to_str_text (absolute : bool) (l : list string) :
  l <> [] -> to_str (mkPath (if absolute then "/" else "") l) = path_text absolute l.
Proof.
  intros Hne. unfold to_str, path_text. cbn [root parts].
  destruct absolute; [reflexivity|]. destruct l; [congruence|reflexivity].
Qed.

Lemma rfind_none (c : ascii) (s : string) :
  all_chars (other_than c) s = true -> rfind c s = None.
Proof.
  induction s as [|a s IH]; [reflexivity|].
  cbn. intros H. apply andb_prop in H. destruct H as [Ha Hs].
  rewrite (IH Hs). unfold other_than in Ha.
  destruct (Ascii.eqb a c); [discriminate Ha|reflexivity].
Qed.

Lemma rfind_last (c : ascii) (a b : string) :
  all_chars (other_than c) b = true ->
  rfind c (a +:+ String c b) = Some (String.length a).
Proof.
  intros Hb. induction a as [|x a IH].
  - change ("" +:+ String c b) with (String c b). cbn [rfind String.length].
    rewrite (rfind_none c b Hb). now rewrite Ascii.eqb_refl.
  - change (String x a +:+ String c b) with (String x (a +:+ String c b)).
    cbn [rfind String.length]. now rewrite IH.
Qed.

Lemma substring_app_l (a b : string) :
  String.substring 0 (String.length a) (a +:+ b) = a.
Proof.
  induction a as [|c a IH]; [now destruct b|].
  change (String c a +:+ b) with (String c (a +:+ b)).
  cbn [String.length String.substring]. now rewrite IH.
Qed.

(** The stem of [base.ext] is [base]; a name without a dot is its own
    stem. *)
Lemma stem_base_ext (r : string) (l : list string) (base ext : string) :
  base <> "" -> ext <> "" -> all_chars (other_than ".") ext = true ->
  stem (mkPath r (l ++ [base +:+ "." +:+ ext])) = base.
Proof.
  intros Hb He Hd. unfold stem, name. cbn [parts]. rewrite last_last.
  change (base +:+ "." +:+ ext) with (base +:+ String "." ext).
  rewrite rfind_last by exact Hd.
  rewrite append_length. cbn [String.length].
  destruct base as [|x base]; [congruence|]. destruct ext as [|y ext]; [congruence|].
  cbn [String.length].
  replace ((0 <? S (String.length base))%nat) with true by (symmetry; apply Nat.ltb_lt; lia).
  replace ((S (String.length base) <? S (String.length base) + S (S (String.length ext)) - 1)%nat)
    with true by (symmetry; apply Nat.ltb_lt; lia).
  cbn [andb].
  exact (substring_app_l (String x base) (String "." (String y ext))).
Qed.

Lemma stem_no_dot (r : string) (l : list string) (n : string) :
  all_chars (other_than ".") n = true -> stem (mkPath r (l ++ [n])) = n.
Proof.
  intros Hd. unfold stem, name. cbn [parts]. rewrite last_last.
  now rewrite rfind_none.
Qed.

Lemma component_plex (a : string) :
  all_chars (other_than "/") a = true -> component (a +:+ "_plex.mp4") = true.
Proof.
  intros Ha. unfold component, kept. rewrite plex_name_valid. cbn [negb andb].
  rewrite all_chars_app, Ha. reflexivity.
Qed.

Lemma convert_file_no_name (self : PlexConverter) (E : env) (input_file : pathlike)
  (w : world) :
  is_Some (fs w !! to_str (Path_ input_file)) ->
  name (Path_ input_file) = "" ->
  convert_file self E input_file None w = (Raise ValueError, w).
Proof.
  intros Hin Hn. unfold convert_file.
  erewrite bind_ret by apply exists_run.
  rewrite bool_decide_eq_true_2 by exact Hin. cbn [negb].
  erewrite bind_raise; [reflexivity|].
  rewrite lift_run. now rewrite resolve_output_no_name.
Qed.

(** C7 (as stated, refuted). The directory [.] exists, and so does the
    root [/].  Neither has a final component: [with_name] raises
    [ValueError] before the [try] statement, no output path is resolved
    and the exception leaves [convert_file]. *)
Lemma C7_no_name_no_output :
  let w := mkWorld (<["/" := []]> {[ "." := [] ]}) [] [] in
  is_Some (fs w !! to_str (of_str "."))
  /\ is_Some (fs w !! to_str (of_str "/"))
  /\ resolve_output (of_str ".") None = Raise ValueError
  /\ resolve_output (of_str "/") None = Raise ValueError
  /\ convert_file plex (encoder [] None (Exits 0)) (PStr ".") None w = (Raise ValueError, w)
  /\ convert_file plex (encoder [] None (Exits 0)) (PStr "/") None w = (Raise ValueError, w).
Proof.
  cbv zeta. repeat split; try (vm_compute; reflexivity); vm_compute; eauto.
Qed.

(** C7 (amended). Let the input path exist and no output path be given.
    - If the path has no final component (as [.] and [/]), [convert_file]
      raises [ValueError] and resolves nothing.
    - Otherwise the resolved output has the root and the directory
      components of the input and the name [<stem>_plex.mp4]; when
      nothing is at that path the conversion goes on with it.
    - As text: when the input is written [d1/.../dk/n], or
      [/d1/.../dk/n], with components that are neither empty nor [.],
      the path reads back as it was written and the output reads
      [d1/.../dk/<stem>_plex.mp4], from the root if the input was; the
      stem of [base.ext] is [base] when [ext] has no dot, and a name
      without a dot is its own stem. *)
Theorem C7_default_output_beside_input (self : PlexConverter) (E : env)
  (input_file : string) (w : world) :
  let input_path := of_str input_file in
  is_Some (fs w !! to_str input_path) ->
  (name input_path = "" ->
   convert_file self E (PStr input_file) None w = (Raise ValueError, w))
  /\ (name input_path <> "" ->
      resolve_output input_path None
      = Ret (mkPath (root input_path)
               (removelast (parts input_path) ++ [stem input_path +:+ "_plex.mp4"]))
      /\ (fs w !! to_str (beside input_path) = None ->
          convert_file self E (PStr input_file) None w
          = convert self E input_path (beside input_path) w))
  /\ (forall absolute dirs n,
         Forall (fun c => component c = true) (dirs ++ [n]) ->
         input_file = path_text absolute (dirs ++ [n]) ->
         to_str input_path = input_file
         /\ (exists out, resolve_output input_path None = Ret out
                         /\ to_str out
                            = path_text absolute (dirs ++ [stem input_path +:+ "_plex.mp4"])
                         /\ of_str (to_str out) = out)
         /\ (forall base ext,
                n = base +:+ "." +:+ ext ->
                base <> "" -> ext <> "" -> all_chars (other_than ".") ext = true ->
                stem input_path = base)
         /\ (all_chars (other_than ".") n = true -> stem input_path = n)).
Proof.
  intros p Hin. split; [|split].
  - intros Hn. now apply (convert_file_no_name self E (PStr input_file) w).
  - intros Hn.
    assert (Hres : resolve_output p None = Ret (beside p)).
    { apply with_name_plex; [exact Hn|].
      apply (of_str_parts input_file). now apply last_in. }
    split; [exact Hres|].
    intros Hfree. now apply convert_file_fresh.
  - intros absolute dirs n Hc ->.
    assert (Hne : dirs ++ [n] <> []) by (now destruct dirs).
    pose proof (of_str_text absolute (dirs ++ [n]) Hc Hne) as Hp.
    fold p in Hp.
    apply Forall_app in Hc. destruct Hc as [Hd Hn]. inversion Hn as [|? ? Hcn _]; subst.
    destruct (component_inv n Hcn) as (_ & Hs & a & t & En & _).
    assert (Hname : name p = n) by (rewrite Hp; unfold name; cbn [parts]; apply last_last).
    assert (Hbes : beside p
                   = mkPath (if absolute then "/" else "") (dirs ++ [stem p +:+ "_plex.mp4"])).
    { unfold beside. rewrite Hp at 1 2. cbn [root parts]. now rewrite removelast_last. }
    assert (Hcs : Forall (fun c => component c = true) (dirs ++ [stem p +:+ "_plex.mp4"])).
    { apply Forall_app. split; [exact Hd|]. constructor; [|constructor].
      apply component_plex. apply stem_chars. now rewrite Hname. }
    split; [|split; [|split]].
    + rewrite Hp. now apply to_str_text.
    + exists (beside p). split.
      * apply with_name_plex; rewrite Hname; [rewrite En; discriminate|exact Hs].
      * rewrite Hbes. rewrite to_str_text by (now destruct dirs). split; [reflexivity|].
        apply of_str_text; [exact Hcs|now destruct dirs].
    + intros base ext -> Hb He Hdot. rewrite Hp. now apply stem_base_ext.
    + intros Hdot. rewrite Hp. now apply stem_no_dot.
Qed.

Lemma C7_default_output_beside_input_witness :
  (exists out, resolve_output (of_str "movie.mkv") None = Ret out
               /\ to_str out = "movie_plex.mp4")
  /\ (exists out, resolve_output (of_str "/srv/films/movie.final.mkv") None = Ret out
                  /\ to_str out = "/srv/films/movie.final_plex.mp4")
  /\ to_str (of_str "/srv/films/movie.final.mkv") = "/srv/films/movie.final.mkv".
Proof.
  destruct (C7_default_output_beside_input plex (encoder [] None (Exits 0)) "movie.mkv"
              (mkWorld {[ "movie.mkv" := movie ]} [] []))
    as (_ & _ & H1); [vm_compute; eauto|].
  destruct (H1 false [] "movie.mkv") as (_ & (o1 & Ho1 & Ht1 & _) & Hs1 & _);
    [repeat constructor|reflexivity|].
  rewrite (Hs1 "movie" "mkv") in Ht1 by (reflexivity || discriminate).
  destruct (C7_default_output_beside_input plex (encoder [] None (Exits 0))
              "/srv/films/movie.final.mkv"
              (mkWorld {[ "/srv/films/movie.final.mkv" := movie ]} [] []))
    as (_ & _ & H2); [vm_compute; eauto|].
  destruct (H2 true ["srv"; "films"] "movie.final.mkv") as (Hr2 & (o2 & Ho2 & Ht2 & _) & Hs2 & _);
    [repeat constructor|reflexivity|].
  rewrite (Hs2 "movie.final" "mkv") in Ht2 by (reflexivity || discriminate).
  split; [exists o1; split; [exact Ho1|exact Ht1]|].
  split; [exists o2; split; [exact Ho2|exact Ht2]|exact Hr2].
Defined.
